(** * Example retrieval for the TMF921 intent translator

    A shallow embedding of [src/rag/rag_retriever.py] (class [RAGRetriever]),
    of [RAGTranslator.retrieve_examples] in [src/rag/rag_translator.py] and of
    [build_vector_database] in [src/rag/build_vector_db.py], followed by the
    properties of the three selection policies (top-k, MMR, hybrid).

    A second group of definitions embeds what surrounds the retriever:
    [format_examples_for_prompt], the rest of [RAGTranslator]
    ([build_rag_prompt], [translate]) with the [IntentCategorizer] of
    [src/core/intent_categorizer.py] it calls, and the runner of
    [experiments/run_experiments.py] that calls the translator.  Their
    properties come last.

    Conventions of the embedding.
    - Python [float] and numpy scalars are exact rationals ([Q]); rounding,
      [nan] and [inf] are outside the model.  Python's [/] raises
      [ZeroDivisionError] on a zero divisor and is modelled as such; numpy's
      [/] inside [_cosine_similarity] does not raise and is [Qdiv].
    - A Python exception is an [exn]; a call returns an [outcome].  The
      [while] loop of [retrieve_mmr] is run on fuel: one unit per execution
      of the loop body, [OutOfFuel] when the body would run once more.
    - [sentence_transformers], [numpy] and [chromadb] are external packages.
      What the code uses of them is a parameter (the class [Backend], the
      variables of the builder), except for the nearest-neighbour query of
      the collection, which is written out from the specification.
    - [str] is [string]; [str.lower] and [str.split] act on ASCII.
    - [re], [int], [float], [json], the language model and the validator
      are parameters as well; a call of one of them returns a value or
      raises ([exn + A]). *)

From Stdlib Require Import QArith Qminmax Lqa Ascii.
From stdpp Require Import base list gmap strings pretty sorting.

(** ** Python values and control *)

Inductive exn : Type :=
| ValueError (msg : string)
| ZeroDivisionError
| IndexError
| KeyError (key : string)
| LibraryError (origin : string).

Inductive outcome (A : Type) : Type :=
| Ret (a : A)
| Raise (e : exn)
| OutOfFuel.
Arguments Ret {A} a.
Arguments Raise {A} e.
Arguments OutOfFuel {A}.

#[global] Instance outcome_ret : MRet outcome := fun A a => Ret a.
#[global] Instance outcome_bind : MBind outcome := fun A B f m =>
  match m with
  | Ret a => f a
  | Raise e => Raise e
  | OutOfFuel => OutOfFuel
  end.

Definition fails {A} (r : outcome A) : Prop := exists e, r = Raise e.

(** [a / b] on two [int]s (true division). *)
Definition int_truediv (a b : nat) : outcome Q :=
  if Nat.eqb b 0 then Raise ZeroDivisionError
  else Ret (Z.of_nat a # Pos.of_nat b).

(** [a / b] on Python floats. *)
Definition float_truediv (a b : Q) : outcome Q :=
  if Qeq_bool b 0 then Raise ZeroDivisionError else Ret (a / b)%Q.

(** [a > b] on floats. *)
Definition float_gt (a b : Q) : bool := negb (Qle_bool a b).

(** The builtin [max] on a non-empty list: the first element is the running
    maximum, replaced by a later one only when that one is strictly greater. *)
Definition py_max (x : Q) (xs : list Q) : Q :=
  fold_left (fun m y => if float_gt y m then y else m) xs x.

(** [l[i]] for [i >= 0]. *)
Definition py_index {A} (l : list A) (i : nat) : outcome A :=
  match l !! i with
  | Some a => Ret a
  | None => Raise IndexError
  end.

(** [str.lower] (ASCII letters). *)
Definition lower_ascii (c : ascii) : ascii :=
  let n := nat_of_ascii c in
  if (65 <=? n)%nat && (n <=? 90)%nat then ascii_of_nat (n + 32) else c.

Fixpoint str_lower (s : string) : string :=
  match s with
  | EmptyString => EmptyString
  | String c r => String (lower_ascii c) (str_lower r)
  end.

(** The characters [str.split()] treats as separators (ASCII range). *)
Definition is_space (c : ascii) : bool :=
  let n := nat_of_ascii c in
  ((9 <=? n)%nat && (n <=? 13)%nat) || ((28 <=? n)%nat && (n <=? 32)%nat).

Fixpoint split_from (cur : string) (s : string) : list string :=
  match s with
  | EmptyString => if String.eqb cur "" then [] else [cur]
  | String c r =>
      if is_space c
      then (if String.eqb cur "" then split_from "" r
            else cur :: split_from "" r)
      else split_from (cur +:+ String c "") r
  end.

(** [s.split()]: the maximal runs of non-space characters. *)
Definition str_split (s : string) : list string := split_from "" s.

(** [set(s.lower().split())] *)
Definition keywords (s : string) : gset string :=
  list_to_set (str_split (str_lower s)).

(** ** Stable sorting

    [list.sort(key=...)] and the ordering of a nearest-neighbour answer are
    both stable.  [sort_by before] is insertion sort: an element is placed
    after exactly those already-sorted elements that must come strictly
    [before] it, so elements with equal keys keep their original order. *)

Fixpoint insert_by {A} (before : A -> A -> bool) (x : A) (l : list A)
    : list A :=
  match l with
  | [] => [x]
  | y :: l' => if before y x then y :: insert_by before x l' else x :: y :: l'
  end.

Fixpoint sort_by {A} (before : A -> A -> bool) (l : list A) : list A :=
  match l with
  | [] => []
  | x :: l' => insert_by before x (sort_by before l')
  end.

(** ** The vector index *)

(** One stored entry of the collection: what [collection.add] receives for
    one position of [ids], [embeddings], [documents] and [metadatas]. *)
Record Row (Emb : Type) : Type := mkRow {
  row_id : string;
  row_embedding : Emb;
  row_document : string;
  row_tmf921_intent : string;   (* metadata['tmf921_intent'], JSON text *)
  row_user_intent : string      (* metadata['user_intent'] *)
}.
Arguments mkRow {Emb}.
Arguments row_id {Emb}.
Arguments row_embedding {Emb}.
Arguments row_document {Emb}.
Arguments row_tmf921_intent {Emb}.
Arguments row_user_intent {Emb}.

(** One position of the answer of [collection.query]: the entries of
    [documents[0]], [metadatas[0]], [distances[0]] and [ids[0]] at the same
    index. *)
Record Hit : Type := mkHit {
  hit_document : string;
  hit_tmf921_intent : string;
  hit_distance : Q;
  hit_id : string
}.

(** The dict built by [retrieve_top_k] for one hit.  [combined_score] is the
    key that only [retrieve_hybrid] adds ([None]: key absent).  The payload
    [tmf921_intent] is never inspected by the retriever: it is kept as the
    JSON text that [json.loads] parses. *)
Record Example : Type := mkExample {
  user_intent : string;
  tmf921_intent : string;
  distance : Q;
  id : string;
  combined_score : option Q
}.

(** [result['combined_score'] = s] *)
Definition set_combined_score (s : Q) (ex : Example) : Example :=
  {| user_intent := user_intent ex;
     tmf921_intent := tmf921_intent ex;
     distance := distance ex;
     id := id ex;
     combined_score := Some s |}.

(** [x['combined_score']] *)
Definition get_combined_score (ex : Example) : outcome Q :=
  match combined_score ex with
  | Some s => Ret s
  | None => Raise (KeyError "combined_score")
  end.

(** The combined score an exemplar carries, for stating how a list of
    scored exemplars is ordered. *)
Definition score_of (ex : Example) : Q :=
  match combined_score ex with
  | Some s => s
  | None => 0%Q
  end.

(** ** The retriever ([rag_retriever.py]) *)

(** What the retriever uses of the external packages. *)
Class Backend (Emb : Type) : Type := {
  (** [self.embedder.encode([text])[0]]; on a list of texts [encode] is
      applied to each. *)
  encode : string -> Emb;
  (** [np.dot] and [np.linalg.norm]. *)
  np_dot : Emb -> Emb -> Q;
  np_norm : Emb -> Q;
  (** The distance function of the collection. *)
  space : Emb -> Emb -> Q;
  (** What [collection.query] does when [n_results <= 0]. *)
  query_nonpos : Z -> outcome (list Hit)
}.

Section Retriever.
Context {Emb : Type} `{!Backend Emb}.

(** The entries of [self.collection], in insertion order. *)
Variable rows : list (Row Emb).

Definition hit_of (e : Emb) (r : Row Emb) : Hit :=
  {| hit_document := row_document r;
     hit_tmf921_intent := row_tmf921_intent r;
     hit_distance := space e (row_embedding r);
     hit_id := row_id r |}.

(** [nearer a b]: [a] is strictly nearer to the query than [b]. *)
Definition nearer (a b : Hit) : bool :=
  float_gt (hit_distance b) (hit_distance a).

(** Modelled from the spec: [chromadb] is not part of the sources; section
    4.1 has [query(vector, n)] return up to [n] nearest entries in ascending
    distance, ties in insertion order, and all entries when [n] exceeds the
    corpus size. *)
Definition collection_query (e : Emb) (n_results : Z) : outcome (list Hit) :=
  if (n_results <=? 0)%Z then query_nonpos n_results
  else Ret (take (Z.to_nat n_results) (sort_by nearer (map (hit_of e) rows))).

Definition example_of_hit (h : Hit) : Example :=
  {| user_intent := hit_document h;
     tmf921_intent := hit_tmf921_intent h;
     distance := hit_distance h;
     id := hit_id h;
     combined_score := None |}.

Definition retrieve_top_k (query : string) (k : Z) : outcome (list Example) :=
  let query_embedding := encode query in
  results ← collection_query query_embedding k;
  mret (map example_of_hit results).

(** [_cosine_similarity] *)
Definition cosine_similarity (a b : Emb) : Q :=
  (np_dot a b / (np_norm a * np_norm b))%Q.

Section MMRLoop.
Variable lambda_mult : Q.
Variable query_emb : Emb.
Variable candidates : list Example.
Variable candidate_embs : list Emb.

(** The body of the [for] loop for an unselected [i], up to
    [score = ...]. *)
Definition mmr_score (selected_indices : list nat) (i : nat) : outcome Q :=
  ei ← py_index candidate_embs i;
  let relevance := cosine_similarity query_emb ei in
  let sim j := ej ← py_index candidate_embs j;
               mret (cosine_similarity ei ej) in
  diversity ←
    match selected_indices with
    | [] => mret 1%Q
    | j :: js =>
        s ← sim j;
        ss ← mapM sim js;
        mret (1 - py_max s ss)%Q
    end;
  mret (lambda_mult * relevance + (1 - lambda_mult) * diversity)%Q.

(** [for i, candidate in enumerate(candidates)], from position [i] on.
    [best] is [(best_score, best_idx)]; [None] is the initial
    [(-inf, -1)]. *)
Fixpoint mmr_scan (selected_indices : list nat) (i : nat)
    (rest : list Example) (best : option (Q * nat))
    : outcome (option (Q * nat)) :=
  match rest with
  | [] => mret best
  | _ :: rest' =>
      if bool_decide (i ∈ selected_indices)
      then mmr_scan selected_indices (S i) rest' best
      else
        score ← mmr_score selected_indices i;
        let better :=
          match best with
          | None => true
          | Some (best_score, _) => float_gt score best_score
          end in
        mmr_scan selected_indices (S i) rest'
                 (if better then Some (score, i) else best)
  end.

(** [while len(selected) < k] *)
Fixpoint mmr_loop (fuel : nat) (k : Z) (selected : list Example)
    (selected_indices : list nat)
    : outcome (list Example * list nat) :=
  if (Z.of_nat (length selected) <? k)%Z then
    match fuel with
    | O => OutOfFuel
    | S fuel' =>
        best ← mmr_scan selected_indices 0 candidates None;
        match best with
        | Some (_, best_idx) =>
            c ← py_index candidates best_idx;
            mmr_loop fuel' k (selected ++ [c])
                     (selected_indices ++ [best_idx])
        | None => mmr_loop fuel' k selected selected_indices
        end
    end
  else mret (selected, selected_indices).
End MMRLoop.

(** The selection state [(selected, selected_indices)] at the [return] of
    [retrieve_mmr], for a pool that passed the [len(candidates) <= k]
    test. *)
Definition mmr_select (fuel : nat) (query : string) (k : Z)
    (lambda_mult : Q) (candidates : list Example)
    : outcome (list Example * list nat) :=
  let query_emb := encode query in
  let candidate_texts := map user_intent candidates in
  let candidate_embs := map encode candidate_texts in
  mmr_loop lambda_mult query_emb candidates candidate_embs fuel k [] [].

Definition retrieve_mmr (fuel : nat) (query : string) (k fetch_k : Z)
    (lambda_mult : Q) : outcome (list Example) :=
  candidates ← retrieve_top_k query fetch_k;
  if (Z.of_nat (length candidates) <=? k)%Z then mret candidates
  else
    st ← mmr_select fuel query k lambda_mult candidates;
    mret st.1.

(** The body of [for result in semantic_results]. *)
Definition hybrid_score (query_keywords : gset string) (keyword_weight : Q)
    (result : Example) : outcome Example :=
  let doc_keywords := keywords (user_intent result) in
  keyword_overlap ←
    int_truediv (size (query_keywords ∩ doc_keywords)) (size query_keywords);
  semantic_score ← float_truediv 1 (1 + distance result);
  let combined_score :=
    ((1 - keyword_weight) * semantic_score
     + keyword_weight * keyword_overlap)%Q in
  mret (set_combined_score combined_score result).

(** [l.sort(key=lambda x: x['combined_score'], reverse=True)]: the keys
    are computed first, then the list is sorted on them, larger keys
    first, equal keys in their original order. *)
Definition sort_combined_desc (l : list Example) : outcome (list Example) :=
  keys ← mapM get_combined_score l;
  mret (map snd (sort_by (fun a b => float_gt a.1 b.1) (zip keys l))).

(** [l[:k]] *)
Definition slice_to {A} (l : list A) (k : Z) : list A :=
  if (k <? 0)%Z then take (length l - Z.to_nat (- k)) l
  else take (Z.to_nat k) l.

Definition retrieve_hybrid (query : string) (k : Z) (keyword_weight : Q)
    : outcome (list Example) :=
  semantic_results ← retrieve_top_k query (k * 2);
  let query_keywords := keywords query in
  scored ← mapM (hybrid_score query_keywords keyword_weight) semantic_results;
  sorted ← sort_combined_desc scored;
  mret (slice_to sorted k).

(** [RAGTranslator.retrieve_examples], with [self.retrieval_strategy] and
    [self.k] as arguments.  The policies are called with their default
    [fetch_k = 20], [lambda_mult = 0.5] and [keyword_weight = 0.3]. *)
Definition retrieve_examples (fuel : nat) (retrieval_strategy : string)
    (k : Z) (user_intent : string) : outcome (list Example) :=
  if String.eqb retrieval_strategy "topk" then
    retrieve_top_k user_intent k
  else if String.eqb retrieval_strategy "mmr" then
    retrieve_mmr fuel user_intent k 20 (1 # 2)
  else if String.eqb retrieval_strategy "hybrid" then
    retrieve_hybrid user_intent k (3 # 10)
  else
    Raise (ValueError ("Unknown retrieval strategy: " +:+ retrieval_strategy)).

(** *** The policies as the specification words them

    These definitions are not used by the code above; the theorems compare
    the code with them. *)

(** The answer of the nearest-neighbour policy for [n >= 1]: the first [n]
    entries of the corpus in ascending distance to the query. *)
Definition pool_of (query : string) (n : Z) : list Example :=
  map example_of_hit
      (take (Z.to_nat n) (sort_by nearer (map (hit_of (encode query)) rows))).

(** similarity(a, b) of two texts. *)
Definition similarity (a b : string) : Q :=
  cosine_similarity (encode a) (encode b).

(** diversity = 1 - max over the already selected [s] of
    similarity(candidate, s), and 1 when nothing is selected yet. *)
Definition spec_diversity (chosen : list Example) (c : Example) : Q :=
  match chosen with
  | [] => 1%Q
  | s :: ss =>
      (1 - fold_left Qmax
             (map (fun s' => similarity (user_intent c) (user_intent s')) ss)
             (similarity (user_intent c) (user_intent s)))%Q
  end.

(** score = lambda * relevance + (1 - lambda) * diversity *)
Definition spec_mmr_score (lambda_mult : Q) (query : string)
    (chosen : list Example) (c : Example) : Q :=
  (lambda_mult * similarity query (user_intent c)
   + (1 - lambda_mult) * spec_diversity chosen c)%Q.

(** One greedy step over [pool]: with the indices [taken] already selected
    (their candidates being [chosen]), index [b] is unselected and its
    candidate has the highest score among the unselected ones, every
    unselected candidate of lower rank scoring strictly less. *)
Definition greedy_choice (lambda_mult : Q) (query : string)
    (pool : list Example) (taken : list nat) (chosen : list Example)
    (b : nat) : Prop :=
  exists cb,
    pool !! b = Some cb /\ (b ∉ taken) /\
    forall j cj, pool !! j = Some cj -> j ∉ taken ->
      (spec_mmr_score lambda_mult query chosen cj
       <= spec_mmr_score lambda_mult query chosen cb)%Q /\
      (j < b ->
       (spec_mmr_score lambda_mult query chosen cj
        < spec_mmr_score lambda_mult query chosen cb)%Q).

(** keyword_score = |query_tokens ∩ candidate_tokens| / |query_tokens|, and
    0 when the query has no token. *)
Definition spec_keyword_score (query : string) (c : Example) : Q :=
  let query_tokens := keywords query in
  let candidate_tokens := keywords (user_intent c) in
  if Nat.eqb (size query_tokens) 0 then 0%Q
  else (Z.of_nat (size (query_tokens ∩ candidate_tokens))
        # Pos.of_nat (size query_tokens)).

(** combined = (1 - keyword_weight) * (1 / (1 + distance))
               + keyword_weight * keyword_score *)
Definition spec_combined_score (query : string) (keyword_weight : Q)
    (c : Example) : Q :=
  ((1 - keyword_weight) * (1 / (1 + distance c))
   + keyword_weight * spec_keyword_score query c)%Q.

(** The exemplars [retrieve_hybrid] sorts when every score can be computed:
    the [2k] nearest candidates, each with its combined score. *)
Definition scored_pool (query : string) (k : Z) (keyword_weight : Q)
    : list Example :=
  map (fun c => set_combined_score (spec_combined_score query keyword_weight c)
      c)
      (pool_of query (k * 2)).

(** *** States of the greedy loop *)

(** [taken] are positions of [pool] and [chosen] the candidates there: how
    [selected_indices] and [selected] are related. *)
Definition picks_from (pool : list Example) (taken : list nat)
    (chosen : list Example) : Prop :=
  Forall2 (fun j s => pool !! j = Some s) taken chosen.

(** What [(best_score, best_idx)] holds when the [for] loop reaches position
    [i]: nothing while every position before [i] is selected, and otherwise
    the first unselected position of highest score before [i]. *)
Definition scan_state (lambda_mult : Q) (query : string)
    (pool : list Example) (taken : list nat) (chosen : list Example)
    (i : nat) (best : option (Q * nat)) : Prop :=
  match best with
  | None => forall j, j < i -> j ∈ taken
  | Some (v, b) =>
      b < i /\ (b ∉ taken) /\
      (exists cb, pool !! b = Some cb /\
                  v == spec_mmr_score lambda_mult query chosen cb) /\
      forall j cj, j < i -> pool !! j = Some cj -> j ∉ taken ->
        (spec_mmr_score lambda_mult query chosen cj <= v)%Q /\
        (j < b -> (spec_mmr_score lambda_mult query chosen cj < v)%Q)
  end.

End Retriever.

(** ** The index builder ([build_vector_db.py]) *)

(** One item of [train_data]; the TMF921 document is carried as the text
    [json.dumps] gives for it. *)
Record IntentPair : Type := mkPair {
  pair_user_intent : string;
  pair_tmf921_intent : string
}.

Section IndexBuilder.
Context {Emb : Type}.

(** [SentenceTransformer(model_name).encode(texts, ...)], which may raise. *)
Variable model_encode : list string -> outcome (list Emb).
(** [collection.add(ids, embeddings, documents, metadatas)] on a collection
    with the given rows: the rows afterwards, or the exception raised.
    A metadata dict is the pair of its [tmf921_intent] and [user_intent]. *)
Variable collection_add :
  list (Row Emb) -> list string -> list Emb -> list string ->
  list (string * string) -> outcome (list (Row Emb)).

Definition create_embeddings (texts : list string) : outcome (list Emb) :=
  model_encode texts.

(** The persistent client is the map from collection names to their rows;
    the function returns the client afterwards and its own outcome. *)
Definition build_vector_database (train_data : list IntentPair)
    (collection_name : string) (client : gmap string (list (Row Emb)))
    : gmap string (list (Row Emb)) * outcome (list (Row Emb)) :=
  let user_intents := map pair_user_intent train_data in
  match create_embeddings user_intents with
  | Ret embeddings =>
      (* try: client.delete_collection(...) except: pass *)
      let client := delete collection_name client in
      (* client.create_collection(...) *)
      let client := <[collection_name := []]> client in
      let ids :=
        map (fun i : nat => "intent_" +:+ pretty i)
            (seq 0 (length train_data)) in
      let documents := user_intents in
      let metadatas :=
        map (fun item => (pair_tmf921_intent item, pair_user_intent item))
            train_data in
      match collection_add [] ids embeddings documents metadatas with
      | Ret rows => (<[collection_name := rows]> client, Ret rows)
      | Raise e => (client, Raise e)
      | OutOfFuel => (client, OutOfFuel)
      end
  | Raise e => (client, Raise e)
  | OutOfFuel => (client, OutOfFuel)
  end.

End IndexBuilder.

(** ** A concrete instance

    Embeddings are vectors of rationals, the collection uses the squared
    Euclidean distance (chromadb's default space) and [collection.add]
    rejects an empty or ragged batch, as chromadb's argument validation
    does.  [vec_norm] is the Euclidean norm wherever that norm is rational,
    which is the case for every vector used below. *)

Module Fixture.

Definition vec_dot (a b : list Q) : Q :=
  foldr Qplus 0%Q (zip_with Qmult a b).

Definition q_sqrt (q : Q) : Q :=
  Z.sqrt (Qnum q * Z.pos (Qden q)) # Qden q.

Definition vec_norm (a : list Q) : Q := q_sqrt (vec_dot a a).

Definition l2 (a b : list Q) : Q :=
  let d := zip_with Qminus a b in vec_dot d d.

(** A three-text embedding table. *)
Definition embed (s : string) : list Q :=
  if String.eqb s "far" then [6; 0]%Q
  else if String.eqb s "near" then [3; 4]%Q
  else if String.eqb s "deploy a slice" then [0; 5]%Q
  else [1; 0]%Q.

Definition embed_all (texts : list string) : outcome (list (list Q)) :=
  Ret (map embed texts).

Definition no_query (n : Z) : outcome (list Hit) :=
  Raise (LibraryError "chromadb: n_results").

Definition chroma_add (old : list (Row (list Q))) (ids : list string)
    (embeddings : list (list Q)) (documents : list string)
    (metadatas : list (string * string)) : outcome (list (Row (list Q))) :=
  if Nat.eqb (length ids) 0
     || negb (Nat.eqb (length embeddings) (length ids))
     || negb (Nat.eqb (length documents) (length ids))
     || negb (Nat.eqb (length metadatas) (length ids))
  then Raise (LibraryError "chromadb: add")
  else
    Ret (old ++
         zip_with (fun i x => mkRow i x.1.1 x.1.2 x.2.1 x.2.2)
                  ids (zip (zip embeddings documents) metadatas)).

#[global] Instance backend : Backend (list Q) := {|
  encode := embed;
  np_dot := vec_dot;
  np_norm := vec_norm;
  space := l2;
  query_nonpos := no_query
|}.

Definition corpus : list IntentPair :=
  [ mkPair "far" "{A}"; mkPair "near" "{B}"; mkPair "deploy a slice" "{C}" ].

(** The collection [build_vector_database] leaves for [corpus]. *)
Definition index : list (Row (list Q)) :=
  match (build_vector_database embed_all chroma_add corpus
                               "tmf921_intents" ∅).2 with
  | Ret rows => rows
  | _ => []
  end.

(** A corpus of 22 entries, all with the same embedding. *)
Definition corpus22 : list IntentPair :=
  map (fun i : nat => mkPair ("intent " +:+ pretty i) "{}") (seq 0 22).

Definition index22 : list (Row (list Q)) :=
  match (build_vector_database embed_all chroma_add corpus22
                               "tmf921_intents" ∅).2 with
  | Ret rows => rows
  | _ => []
  end.

(** A client that already holds the collection of [corpus]. *)
Definition client : gmap string (list (Row (list Q))) :=
  {[ "tmf921_intents" := index ]}.

End Fixture.

(** * More of the code

    [format_examples_for_prompt] of [rag_retriever.py], the rest of
    [RAGTranslator] ([build_rag_prompt], [translate]) with the
    [IntentCategorizer] it calls ([src/core/intent_categorizer.py]), and
    the experiment runner that calls the translator
    ([experiments/run_experiments.py]). *)

(** ** Python strings and dicts *)

Definition newline : string := String (ascii_of_nat 10) "".

(** [sep.join(l)] *)
Definition str_join (sep : string) (l : list string) : string :=
  String.concat sep l.

Definition upper_ascii (c : ascii) : ascii :=
  let n := nat_of_ascii c in
  if (97 <=? n)%nat && (n <=? 122)%nat then ascii_of_nat (n - 32) else c.

(** [str.capitalize] (ASCII letters): the first character in upper case,
    the others in lower case. *)
Definition str_capitalize (s : string) : string :=
  match s with
  | EmptyString => EmptyString
  | String c r => String (upper_ascii c) (str_lower r)
  end.

(** [needle in hay] *)
Fixpoint str_contains (needle hay : string) : bool :=
  String.prefix needle hay ||
  match hay with
  | EmptyString => false
  | String _ r => str_contains needle r
  end.

(** [s.startswith(p)] *)
Definition str_startswith (p s : string) : bool := String.prefix p s.

(** [s.endswith(p)] *)
Fixpoint str_endswith (p s : string) : bool :=
  String.eqb p s ||
  match s with
  | EmptyString => false
  | String _ r => str_endswith p r
  end.

(** [s[n:]] for [n >= 0] *)
Fixpoint str_from (n : nat) (s : string) : string :=
  match n, s with
  | O, _ => s
  | S n', String _ r => str_from n' r
  | S _, EmptyString => EmptyString
  end.

(** [s[:n]] for [n >= 0] *)
Fixpoint str_to (n : nat) (s : string) : string :=
  match n, s with
  | S n', String c r => String c (str_to n' r)
  | _, _ => EmptyString
  end.

(** [s[:-n]] for [n > 0] *)
Definition str_drop_last (n : nat) (s : string) : string :=
  str_to (String.length s - n) s.

(** [s.lstrip()], [s.rstrip()] and [s.strip()], on the separators of
    [str.split()]. *)
Fixpoint str_lstrip (s : string) : string :=
  match s with
  | EmptyString => EmptyString
  | String c r => if is_space c then str_lstrip r else s
  end.

Fixpoint str_rstrip (s : string) : string :=
  match s with
  | EmptyString => EmptyString
  | String c r =>
      let r' := str_rstrip r in
      if is_space c && String.eqb r' "" then EmptyString else String c r'
  end.

Definition str_strip (s : string) : string := str_rstrip (str_lstrip s).

(** An exception raised by a call into an external package, or the value
    the call returns. *)
Definition external {A} (r : exn + A) : outcome A :=
  match r with
  | inl e => Raise e
  | inr a => Ret a
  end.

(** A value of the dict [categorize] returns: a [str] or an [int]. *)
Inductive pyval : Type :=
| PStr (s : string)
| PInt (n : Z).

(** What an f-string shows for a value. *)
Definition py_format (v : pyval) : string :=
  match v with
  | PStr s => s
  | PInt n => pretty n
  end.

(** [d.get(key, default)] *)
Definition dict_get (d : gmap string pyval) (key : string) (dflt : pyval)
    : pyval :=
  default dflt (d !! key).

(** ** The exemplar formatter ([RAGRetriever.format_examples_for_prompt]) *)

Section Formatter.

(** [json.dumps(doc, indent=2)] of the document with the given text. *)
Variable json_dumps : string -> string.

(** The [for] loop over [enumerate(..., i)]: the lines appended. *)
Fixpoint format_lines (i : nat) (examples : list Example) : list string :=
  match examples with
  | [] => []
  | example :: rest =>
      [ "Example " +:+ pretty i +:+ ":";
        "User Intent: " +:+ user_intent example;
        "TMF921 Intent:";
        json_dumps (tmf921_intent example);
        "" ] ++ format_lines (S i) rest
  end.

Definition format_examples_for_prompt (examples : list Example)
    (max_examples : Z) : string :=
  let formatted := format_lines 1 (slice_to examples max_examples) in
  str_join newline formatted.

End Formatter.

(** ** The intent categorizer ([intent_categorizer.py]) *)

Record CategoryInfo : Type := mkCategory {
  cat_keywords : list string;
  cat_latency_range : Z * Z;
  cat_throughput_range : Z * Z;
  cat_layer : string
}.

(** [IntentCategorizer.CATEGORIES], in the order of the dict. *)
Definition CATEGORIES : list (string * CategoryInfo) :=
  [ ("ultra_low_latency",
     mkCategory ["surgery"; "autonomous"; "emergency"; "mission-critical";
                 "v2x"; "ultra-low"]
                (1, 10)%Z (50, 200)%Z "resource");
    ("low_latency",
     mkCategory ["gaming"; "ar"; "vr"; "real-time"; "live"; "low latency";
                 "ping"]
                (10, 30)%Z (100, 300)%Z "resource");
    ("high_throughput",
     mkCategory ["video"; "stream"; "4k"; "hd"; "broadcast"; "concert";
                 "stadium"]
                (30, 100)%Z (200, 1000)%Z "resource");
    ("iot_massive",
     mkCategory ["iot"; "sensor"; "massive"; "agricultural"; "smart meter";
                 "monitoring"]
                (100, 1000)%Z (1, 10)%Z "resource");
    ("iot_critical",
     mkCategory ["industrial"; "automation"; "control"; "scada";
                 "manufacturing"]
                (10, 50)%Z (10, 100)%Z "resource");
    ("mobile_broadband",
     mkCategory ["mobile"; "broadband"; "download"; "upload"; "connectivity"]
                (20, 100)%Z (100, 500)%Z "resource");
    ("edge_computing",
     mkCategory ["edge"; "mec"; "cdn"; "compute"; "processing"]
                (5, 30)%Z (100, 500)%Z "resource");
    ("service_delivery",
     mkCategory ["deploy"; "provision"; "establish"; "setup"; "create"]
                (50, 200)%Z (50, 200)%Z "service") ].

(** [sum(1 for keyword in keywords if keyword in text)] *)
Definition count_matches (keywords : list string) (text : string) : nat :=
  length (List.filter (fun keyword => str_contains keyword text) keywords).

(** The loop of [categorize] over [CATEGORIES.items()], from the state
    [(category, max_matches)]. *)
Fixpoint scan_categories (intent_lower : string)
    (items : list (string * CategoryInfo)) (category : string)
    (max_matches : nat) : string * nat :=
  match items with
  | [] => (category, max_matches)
  | (cat_name, cat_info) :: rest =>
      let matches := count_matches (cat_keywords cat_info) intent_lower in
      if (max_matches <? matches)%nat
      then scan_categories intent_lower rest cat_name matches
      else scan_categories intent_lower rest category max_matches
  end.

(** [d[key]] on a dict given by its items. *)
Fixpoint items_lookup {A} (items : list (string * A)) (key : string)
    : outcome A :=
  match items with
  | [] => Raise (KeyError key)
  | (k, v) :: rest => if String.eqb k key then Ret v else items_lookup rest key
  end.

(** The table of [_determine_service_type], in the order of the dict. *)
Definition service_types : list (string * list string) :=
  [ ("NetworkSlice", ["slice"; "network"; "connectivity"]);
    ("IoTService", ["iot"; "sensor"; "device"]);
    ("EmergencyService", ["emergency"; "critical"; "rescue"]);
    ("BroadcastService", ["broadcast"; "stream"; "video"]);
    ("EdgeService", ["edge"; "mec"]);
    ("VPNService", ["vpn"; "secure"; "encrypted"]);
    ("GamingService", ["gaming"; "game"; "e-sports"]);
    ("V2XService", ["v2x"; "vehicle"; "autonomous driving"]);
    ("TelehealthService", ["telemedicine"; "health"; "medical"; "hospital"]);
    ("IndustrialService", ["industrial"; "manufacturing"; "automation"]) ].

Fixpoint first_service_type (text_lower : string)
    (items : list (string * list string)) : string :=
  match items with
  | [] => "NetworkSlice"
  | (service_type, keywords) :: rest =>
      if existsb (fun keyword => str_contains keyword text_lower) keywords
      then service_type
      else first_service_type text_lower rest
  end.

Definition _determine_service_type (text : string) : string :=
  let text_lower := str_lower text in
  first_service_type text_lower service_types.

Definition _generate_intent_name (text : string) : string :=
  let words := slice_to (str_split text) 5 in
  let name :=
    str_join "_"
      (map str_capitalize
           (List.filter (fun w => (3 <? String.length w)%nat) words)) in
  "Intent_" +:+ name.

Definition priority_map : list (string * Z) :=
  [ ("ultra_low_latency", 1); ("iot_critical", 1); ("low_latency", 2);
    ("edge_computing", 2); ("high_throughput", 3); ("mobile_broadband", 3);
    ("iot_massive", 4); ("service_delivery", 3) ]%Z.

Definition reliability_map : list (string * string) :=
  [ ("ultra_low_latency", "99.999%"); ("iot_critical", "99.99%");
    ("low_latency", "99.9%"); ("edge_computing", "99.9%");
    ("high_throughput", "99.5%"); ("mobile_broadband", "99.0%");
    ("iot_massive", "95.0%"); ("service_delivery", "99.0%") ].

(** [d.get(key, default)] on a dict given by its items. *)
Fixpoint items_get {A} (items : list (string * A)) (key : string) (dflt : A)
    : A :=
  match items with
  | [] => dflt
  | (k, v) :: rest => if String.eqb k key then v else items_get rest key dflt
  end.

Definition _determine_priority (category : string) : Z :=
  items_get priority_map category 3%Z.

Definition _determine_reliability (category : string) : string :=
  items_get reliability_map category "99.0%".

(** What the categorizer uses of [re] and of the conversions [int] and
    [float]; [PyFloat] is the type of Python floats. *)
Class Builtins (PyFloat : Type) : Type := {
  (** [re.search(pattern, text)]: [group(1)] of the match, if any. *)
  re_search : string -> string -> option string;
  (** [int(s)] on a [str] *)
  int_of_str : string -> exn + Z;
  (** [float(s)] on a [str] *)
  float_of_str : string -> exn + PyFloat;
  (** [value * n] for an [int] [n] *)
  float_times : PyFloat -> Z -> PyFloat;
  (** [int(value)] on a [float] *)
  int_of_float : PyFloat -> exn + Z
}.

Section Categorizer.
Context {PyFloat : Type} `{!Builtins PyFloat}.

Definition latency_patterns : list string :=
  [ "below\s+(\d+)\s*ms";
    "under\s+(\d+)\s*ms";
    "latency\s+(\d+)\s*ms";
    "ping\s+below\s+(\d+)";
    "<\s*(\d+)\s*ms" ].

(** The loop of [_extract_latency] over [patterns]. *)
Fixpoint first_latency (patterns : list string) (text : string)
    : outcome (option Z) :=
  match patterns with
  | [] => mret None
  | pattern :: rest =>
      match re_search pattern (str_lower text) with
      | Some group1 => n ← external (int_of_str group1); mret (Some n)
      | None => first_latency rest text
      end
  end.

Definition _extract_latency (text : string) : outcome (option Z) :=
  first_latency latency_patterns text.

Definition throughput_patterns : list string :=
  [ "(\d+)\s*mb/s";
    "(\d+)\s*mbps";
    "(\d+\.?\d*)\s*gbps" ].

(** The loop of [_extract_throughput] over [patterns]. *)
Fixpoint first_throughput (patterns : list string) (text : string)
    : outcome (option Z) :=
  match patterns with
  | [] => mret None
  | pattern :: rest =>
      match re_search pattern (str_lower text) with
      | Some group1 =>
          value ← external (float_of_str group1);
          let value :=
            if str_contains "gbps" pattern then float_times value 125
            else value in
          n ← external (int_of_float value);
          mret (Some n)
      | None => first_throughput rest text
      end
  end.

Definition _extract_throughput (text : string) : outcome (option Z) :=
  first_throughput throughput_patterns text.

Definition categorize (user_intent : string) : outcome (gmap string pyval) :=
  let intent_lower := str_lower user_intent in
  let category :=
    (scan_categories intent_lower CATEGORIES "mobile_broadband" 0).1 in
  cat_info ← items_lookup CATEGORIES category;
  extracted ← _extract_latency user_intent;
  let latency :=
    match extracted with
    | Some n => n
    | None =>
        ((cat_latency_range cat_info).1 + (cat_latency_range cat_info).2)
        `div` 2
    end%Z in
  extracted ← _extract_throughput user_intent;
  let throughput :=
    match extracted with
    | Some n => n
    | None =>
        ((cat_throughput_range cat_info).1
         + (cat_throughput_range cat_info).2) `div` 2
    end%Z in
  let service_type := _determine_service_type user_intent in
  let intent_name := _generate_intent_name user_intent in
  mret (<["category" := PStr category]>
       (<["layer" := PStr (cat_layer cat_info)]>
       (<["latency_ms" := PInt latency]>
       (<["throughput_mbps" := PInt throughput]>
       (<["service_type" := PStr service_type]>
       (<["intent_name" := PStr intent_name]>
       (<["priority" := PInt (_determine_priority category)]>
       (<["reliability" := PStr (_determine_reliability category)]>
        ∅)))))))).

End Categorizer.

(** ** The rest of the translator ([rag_translator.py]) *)

Section Translator.
Context {Emb : Type} `{!Backend Emb}.
Context {PyFloat : Type} `{!Builtins PyFloat}.
(** [Doc] is the type of parsed JSON documents. *)
Context {Doc : Type}.

Variable rows : list (Row Emb).
(** [json.dumps(doc, indent=2)] of the document with the given text. *)
Variable json_dumps : string -> string.
(** [self.llm.generate(system_prompt=..., user_prompt=..., temperature=0.2,
    json_mode=True)] *)
Variable llm_generate : string -> string -> exn + string.
(** [json.loads(text)], which raises on a text that is not JSON. *)
Variable json_loads : string -> exn + Doc.

(** The [for] loop of [build_rag_prompt] over [enumerate(..., i)]. *)
Fixpoint examples_text (i : nat) (examples : list Example) : list string :=
  match examples with
  | [] => []
  | ex :: rest =>
      [ newline +:+ "--- Example " +:+ pretty i +:+ " ---";
        "User Intent: " +:+ user_intent ex;
        newline +:+ "TMF921 Intent (JSON with Turtle RDF):";
        json_dumps (tmf921_intent ex) ] ++ examples_text (S i) rest
  end.

Definition system_prompt_text : string :=
  str_join newline
    [ "You are an expert TMF921 Intent translator. Your task is to convert natural language telecom intents into TMF921-compliant JSON structures with embedded Turtle RDF expressions.";
      "";
      "CRITICAL REQUIREMENTS:";
      "1. Output ONLY valid JSON - no markdown, no code blocks";
      "2. Include all required TMF921 fields";
      "3. Use proper Turtle RDF syntax in expressionValue";
      "4. Include required TMF ontology namespaces (icm, imo, rdf, rdfs, xsd, idan, logi, quan)";
      "5. Follow the patterns shown in the examples below" ].

(** The f-string of the user prompt, as a function of the values that
    fill its fields. *)
Definition user_prompt_text (examples_str user_intent service_type latency
    throughput priority : string) : string :=
  str_join newline
    [ "Using the examples below as reference, translate this telecom intent to TMF921 format:";
      "";
      "SIMILAR EXAMPLES FROM TRAINING DATA:";
      examples_str;
      "";
      "INTENT TO TRANSLATE:";
      user_intent;
      "";
      "INTENT ANALYSIS:";
      "- Service Type: " +:+ service_type;
      "- Latency: " +:+ latency +:+ " ms";
      "- Throughput: " +:+ throughput +:+ " MB/s";
      "- Priority: " +:+ priority;
      "";
      "Generate a complete, valid TMF921 Intent JSON following the pattern above. Output ONLY the JSON, no other text." ].

Definition build_rag_prompt (user_intent : string) (examples : list Example)
    : outcome (string * string) :=
  analysis ← categorize user_intent;
  let examples_str :=
    str_join newline (examples_text 1 (slice_to examples 3)) in
  let unknown := PStr "Unknown" in
  let user_prompt :=
    user_prompt_text examples_str user_intent
      (py_format (dict_get analysis "service_type" unknown))
      (py_format (dict_get analysis "latency" unknown))
      (py_format (dict_get analysis "throughput" unknown))
      (py_format (dict_get analysis "priority" unknown)) in
  mret (system_prompt_text, user_prompt).

(** The cleaning of the response in [translate]. *)
Definition clean_response (response : string) : string :=
  let response := str_strip response in
  let response :=
    if str_startswith "```json" response then str_from 7 response
    else response in
  let response :=
    if str_startswith "```" response then str_from 3 response
    else response in
  let response :=
    if str_endswith "```" response then str_drop_last 3 response
    else response in
  str_strip response.

(** [RAGTranslator.translate], with [self.retrieval_strategy] and [self.k]
    as arguments. *)
Definition translate (fuel : nat) (retrieval_strategy : string) (k : Z)
    (user_intent : string) : outcome Doc :=
  examples ← retrieve_examples rows fuel retrieval_strategy k user_intent;
  prompts ← build_rag_prompt user_intent examples;
  response ← external (llm_generate prompts.1 prompts.2);
  external (json_loads (clean_response response)).

End Translator.

(** ** The experiment runner ([run_experiments.py]) *)

(** One entry of [results]. *)
Record ResultRow (Doc : Type) : Type := mkResult {
  res_user_intent : string;
  res_generated : option Doc;
  res_reference : string;
  res_valid : bool;
  res_errors : list string
}.
Arguments mkResult {Doc}.
Arguments res_user_intent {Doc}.
Arguments res_generated {Doc}.
Arguments res_reference {Doc}.
Arguments res_valid {Doc}.
Arguments res_errors {Doc}.

(** The dict of [calculate_metrics]. *)
Record Metrics : Type := mkMetrics {
  total_intents : nat;
  valid_intents : nat;
  invalid_intents : Z;
  success_rate : Q;
  total_time_seconds : Q;
  avg_time_per_intent : Q
}.

(** [ExperimentRunner.calculate_metrics] *)
Definition calculate_metrics {Doc} (results : list (ResultRow Doc))
    (elapsed_time : Q) : outcome Metrics :=
  let total := length results in
  let valid := length (List.filter res_valid results) in
  let invalid := (Z.of_nat total - Z.of_nat valid)%Z in
  success_rate ←
    (if (0 <? total)%nat
     then (r ← int_truediv valid total; mret (r * 100)%Q)
     else mret 0%Q);
  avg ←
    (if (0 <? total)%nat
     then float_truediv elapsed_time (inject_Z (Z.of_nat total))
     else mret 0%Q);
  mret {| total_intents := total;
          valid_intents := valid;
          invalid_intents := invalid;
          success_rate := success_rate;
          total_time_seconds := elapsed_time;
          avg_time_per_intent := avg |}.

(** The dict [run_rag_experiment] returns.  Of ['config'] the strategy and
    [k] are kept; the provider and the model are constants. *)
Record Experiment (Doc : Type) : Type := mkExperiment {
  experiment : string;
  config_strategy : string;
  config_k : Z;
  results : list (ResultRow Doc);
  metrics : Metrics
}.
Arguments mkExperiment {Doc}.
Arguments experiment {Doc}.
Arguments config_strategy {Doc}.
Arguments config_k {Doc}.
Arguments results {Doc}.
Arguments metrics {Doc}.

Section Runner.
Context {Emb : Type} `{!Backend Emb}.
Context {PyFloat : Type} `{!Builtins PyFloat}.
Context {Doc : Type}.

Variable rows : list (Row Emb).
Variable json_dumps : string -> string.
Variable llm_generate : string -> string -> exn + string.
Variable json_loads : string -> exn + Doc.
(** [self.validator.validate_intent(generated)]: the entries ['valid'] and
    ['errors'] of its answer. *)
Variable validate_intent : Doc -> exn + bool * list string.
(** [str(e)] of an exception that carries no message in [exn]. *)
Variable describe : exn -> string.

(** [str(e)] *)
Definition exn_str (e : exn) : string :=
  match e with
  | ValueError msg => msg
  | _ => describe e
  end.

(** [self.test_data[:max_intents] if max_intents else self.test_data];
    [None] and [0] are both false. *)
Definition test_subset (test_data : list IntentPair)
    (max_intents : option Z) : list IntentPair :=
  match max_intents with
  | Some n => if (n =? 0)%Z then test_data else slice_to test_data n
  | None => test_data
  end.

(** The body of the loop of [run_rag_experiment] for one item: the entry
    appended to [results]. *)
Definition run_item (fuel : nat) (strategy : string) (k : Z)
    (item : IntentPair) : outcome (ResultRow Doc) :=
  let user_intent := pair_user_intent item in
  let reference := pair_tmf921_intent item in
  let attempt :=
    generated ← translate rows json_dumps llm_generate json_loads
                  fuel strategy k user_intent;
    validation ← external (validate_intent generated);
    mret (mkResult user_intent (Some generated) reference
                   validation.1 validation.2) in
  match attempt with
  | Ret r => Ret r
  | Raise e => Ret (mkResult user_intent None reference false [exn_str e])
  | OutOfFuel => OutOfFuel
  end.

(** [ExperimentRunner.run_rag_experiment], from the point where the
    translator has been constructed; [elapsed_time] is the difference of the
    two readings of the clock. *)
Definition run_rag_experiment (fuel : nat) (test_data : list IntentPair)
    (elapsed_time : Q) (strategy : string) (k : Z) (max_intents : option Z)
    : outcome (Experiment Doc) :=
  results ← mapM (run_item fuel strategy k) (test_subset test_data max_intents);
  metrics ← calculate_metrics results elapsed_time;
  mret {| experiment := "rag_" +:+ strategy +:+ "_k" +:+ pretty k;
          config_strategy := strategy;
          config_k := k;
          results := results;
          metrics := metrics |}.

End Runner.

(** *** The comparison of experiments and the command line *)

Section Comparison.
Context {Doc : Type}.

(** The message of the [ValueError] that [max] raises on an empty sequence;
    its wording depends on the version of Python. *)
Variable max_empty_message : string.

(** The scan of [max(..., key=...)]: the first element with the largest
    key. *)
Fixpoint max_by_from {A} (key : A -> Q) (best : A) (l : list A) : A :=
  match l with
  | [] => best
  | x :: rest =>
      if float_gt (key x) (key best) then max_by_from key x rest
      else max_by_from key best rest
  end.

(** [max(l, key=key)] *)
Definition py_max_by {A} (key : A -> Q) (l : list A) : outcome A :=
  match l with
  | [] => Raise (ValueError max_empty_message)
  | x :: rest => Ret (max_by_from key x rest)
  end.

Record Comparison : Type := mkComparison {
  summary : list (string * (string * Z) * Metrics);
  best_approach : string;
  timestamp : string
}.

(** [ExperimentRunner.compare_experiments]; [now] is
    [datetime.now().isoformat()]. *)
Definition compare_experiments (now : string)
    (experiments : list (Experiment Doc)) : outcome Comparison :=
  let summary :=
    map (fun exp => (experiment exp, (config_strategy exp, config_k exp),
                     metrics exp))
        experiments in
  best ← py_max_by (fun x => success_rate (metrics x)) experiments;
  mret {| summary := summary;
          best_approach := experiment best;
          timestamp := now |}.

End Comparison.

(** [s.replace(old, new)] for a non-empty [old]: the occurrences of [old]
    are replaced from left to right; [skip] counts the characters of an
    occurrence still to be dropped. *)
Fixpoint str_replace_from (old new : string) (skip : nat) (s : string)
    : string :=
  match s with
  | EmptyString => EmptyString
  | String c r =>
      match skip with
      | S n => str_replace_from old new n r
      | O =>
          if String.prefix old s
          then new +:+ str_replace_from old new (String.length old - 1) r
          else String c (str_replace_from old new 0 r)
      end
  end.

Definition str_replace (old new s : string) : string :=
  str_replace_from old new 0 s.

(** [s.split(sep)] for a separator of one character. *)
Fixpoint split_on_from (sep : ascii) (cur : string) (s : string)
    : list string :=
  match s with
  | EmptyString => [cur]
  | String c r =>
      if Ascii.eqb c sep then cur :: split_on_from sep "" r
      else split_on_from sep (cur +:+ String c "") r
  end.

Definition str_split_on (sep : ascii) (s : string) : list string :=
  split_on_from sep "" s.

(** What the loop of [main] does for one experiment name. *)
Inductive Plan : Type :=
| RunBaseline
| RunRag (strategy : string) (k : Z)
| NoRun.

Section CommandLine.
Context {PyFloat : Type} `{!Builtins PyFloat}.

(** [int(part[n:]) if len(part) > n else 5] *)
Definition k_after (n : nat) (part : string) : outcome Z :=
  if (n <? String.length part)%nat then external (int_of_str (str_from n part))
  else mret 5%Z.

(** The body of the loop of [main] over [args.experiments], up to the call
    of the runner. *)
Definition plan_experiment (exp_name : string) : outcome Plan :=
  if String.eqb exp_name "baseline" then mret RunBaseline
  else if str_startswith "rag_" exp_name then
    let parts := str_split_on "_" (str_replace "rag_" "" exp_name) in
    part ← py_index parts 0;
    if str_startswith "topk" part then
      k ← k_after 4 part; mret (RunRag "topk" k)
    else if str_startswith "mmr" part then
      k ← k_after 3 part; mret (RunRag "mmr" k)
    else if str_startswith "hyb" part then
      k ← k_after 6 part; mret (RunRag "hybrid" k)
    else mret (RunRag "topk" 5)
  else mret NoRun.

End CommandLine.

(** ** Definitions used to state the further properties *)

(** What an index stores for a batch added to an empty collection: one row
    per position of [ids], [embeddings], [documents] and [metadatas]. *)
Definition batch_rows {Emb} (ids : list string) (embeddings : list Emb)
    (documents : list string) (metadatas : list (string * string))
    : list (Row Emb) :=
  zip_with (fun i x => mkRow i x.1.1 x.1.2 x.2.1 x.2.2)
           ids (zip (zip embeddings documents) metadatas).

(** The training pair an exemplar shows. *)
Definition pair_of_example (ex : Example) : IntentPair :=
  mkPair (user_intent ex) (tmf921_intent ex).

(** A text of separators only (possibly empty). *)
Fixpoint all_space (s : string) : bool :=
  match s with
  | EmptyString => true
  | String c r => is_space c && all_space r
  end.

(** The dict [categorize] returns, as a function of the chosen category,
    its entry of the table and the two numbers. *)
Definition analysis_of (category : string) (cat_info : CategoryInfo)
    (latency throughput : Z) (user_intent : string) : gmap string pyval :=
  <["category" := PStr category]>
  (<["layer" := PStr (cat_layer cat_info)]>
  (<["latency_ms" := PInt latency]>
  (<["throughput_mbps" := PInt throughput]>
  (<["service_type" := PStr (_determine_service_type user_intent)]>
  (<["intent_name" := PStr (_generate_intent_name user_intent)]>
  (<["priority" := PInt (_determine_priority category)]>
  (<["reliability" := PStr (_determine_reliability category)]>
   ∅))))))).

(** ** A concrete instance of the translator's surroundings

    Floats are rationals; [re.search] knows one text with an explicit
    latency; the language model answers with a fenced document, and the
    validator rejects everything. *)

Module Stubs.

Definition digit_value (c : ascii) : option Z :=
  let n := nat_of_ascii c in
  if (48 <=? n)%nat && (n <=? 57)%nat then Some (Z.of_nat (n - 48)) else None.

Fixpoint digits_value (acc : Z) (s : string) : option Z :=
  match s with
  | EmptyString => Some acc
  | String c r =>
      match digit_value c with
      | Some v => digits_value (10 * acc + v) r
      | None => None
      end
  end.

Definition parse_int (s : string) : exn + Z :=
  match s with
  | EmptyString => inl (ValueError "invalid literal for int()")
  | _ =>
      match digits_value 0 s with
      | Some n => inr n
      | None => inl (ValueError "invalid literal for int()")
      end
  end.

Definition parse_float (s : string) : exn + Q :=
  match parse_int s with
  | inr n => inr (inject_Z n)
  | inl e => inl e
  end.

Definition search (pattern text : string) : option string :=
  if str_contains "below 20ms" text && String.eqb pattern "below\s+(\d+)\s*ms"
  then Some "20" else None.

#[global] Instance builtins : Builtins Q := {|
  re_search := search;
  int_of_str := parse_int;
  float_of_str := parse_float;
  float_times := fun v n => (v * inject_Z n)%Q;
  int_of_float := fun v => inr (Qnum v ÷ Z.pos (Qden v))%Z
|}.

(** Documents are kept as their text. *)
Definition dumps (doc : string) : string := doc.

Definition loads (text : string) : exn + string :=
  if String.eqb text "" then inl (ValueError "Expecting value")
  else inr text.

Definition llm (system_prompt user_prompt : string) : exn + string :=
  inr ("```json" +:+ newline +:+ "{}" +:+ newline +:+ "```").

Definition validate (doc : string) : exn + bool * list string :=
  inr (false, ["Missing expression object"]).

Definition describe (e : exn) : string := "error".

Definition gaming : string := "Create a gaming slice with ping below 20ms".

Definition test_data : list IntentPair :=
  [ mkPair gaming "{G}"; mkPair "Deploy a massive IoT network" "{I}" ].

(** What [categorize] and [build_rag_prompt] return for [gaming]. *)
Definition analysis : gmap string pyval :=
  match categorize gaming with
  | Ret d => d
  | _ => ∅
  end.

Definition user_prompt : string :=
  match build_rag_prompt dumps gaming (pool_of Fixture.index gaming 2) with
  | Ret prompts => prompts.2
  | _ => ""
  end.

End Stubs.

(** ** Facts about the Python-level helpers *)

Lemma float_gt_lt (a b : Q) : float_gt a b = true <-> (b < a)%Q.
Proof.
  unfold float_gt. rewrite negb_true_iff.
  destruct (Qle_bool a b) eqn:E.
  - apply Qle_bool_iff in E. split; [discriminate | intros H; lra].
  - split; [intros _ | reflexivity].
    destruct (Qlt_le_dec b a) as [H | H]; [exact H |].
    apply Qle_bool_iff in H. congruence.
Qed.

Lemma float_gt_le (a b : Q) : float_gt a b = false <-> (a <= b)%Q.
Proof.
  destruct (float_gt a b) eqn:E.
  - apply float_gt_lt in E. split; [discriminate | intros H; lra].
  - split; [intros _ | reflexivity].
    destruct (Qlt_le_dec b a) as [H | H]; [| exact H].
    apply float_gt_lt in H. congruence.
Qed.

(** [max] computes the maximum: up to the representation of a rational it
    is the iterated [Qmax]. *)
Lemma py_max_Qmax (xs : list Q) : forall x x',
  x == x' -> py_max x xs == fold_left Qmax xs x'.
Proof.
  induction xs as [| y xs IH]; intros x x' Hx; simpl; [exact Hx |].
  apply IH.
  destruct (float_gt y x) eqn:E.
  - apply float_gt_lt in E. symmetry. apply Q.max_r. lra.
  - apply float_gt_le in E. rewrite Q.max_l by lra. exact Hx.
Qed.

(** The iterated [Qmax] bounds every element it was taken over. *)
Lemma fold_Qmax_upper (xs : list Q) : forall x,
  (x <= fold_left Qmax xs x)%Q /\
  Forall (fun y => (y <= fold_left Qmax xs x)%Q) xs.
Proof.
  induction xs as [| y xs IH]; intros x; simpl.
  - split; [lra | constructor].
  - destruct (IH (Qmax x y)) as [H1 H2].
    pose proof (Q.le_max_l x y). pose proof (Q.le_max_r x y).
    split; [lra |]. constructor; [lra | exact H2].
Qed.

Lemma int_truediv_ok (a b : nat) :
  b <> 0%nat -> int_truediv a b = Ret (Z.of_nat a # Pos.of_nat b).
Proof.
  intros Hb. unfold int_truediv.
  destruct (Nat.eqb_spec b 0) as [E | _]; [contradiction | reflexivity].
Qed.

Lemma float_truediv_ok (a b : Q) :
  ~ b == 0 -> float_truediv a b = Ret (a / b)%Q.
Proof.
  intros Hb. unfold float_truediv.
  destruct (Qeq_bool b 0) eqn:E; [| reflexivity].
  apply Qeq_bool_iff in E. contradiction.
Qed.

(** ** Facts about [mapM] in [outcome] *)

Lemma mapM_Ret {A B} (f : A -> outcome B) (g : A -> B) (l : list A) :
  Forall (fun a => f a = Ret (g a)) l -> mapM f l = Ret (map g l).
Proof.
  induction 1 as [| a l Ha _ IH]; simpl; [reflexivity |].
  rewrite Ha. simpl. rewrite IH. reflexivity.
Qed.

(** ** Facts about the stable sort *)

Lemma insert_by_Permutation {A} (before : A -> A -> bool) (x : A) (l : list A) :
  insert_by before x l ≡ₚ x :: l.
Proof.
  induction l as [| y l IH]; simpl; [reflexivity |].
  destruct (before y x); [| reflexivity].
  rewrite IH. apply Permutation_swap.
Qed.

Lemma sort_by_Permutation {A} (before : A -> A -> bool) (l : list A) :
  sort_by before l ≡ₚ l.
Proof.
  induction l as [| x l IH]; simpl; [reflexivity |].
  rewrite insert_by_Permutation, IH. reflexivity.
Qed.

Lemma length_sort_by {A} (before : A -> A -> bool) (l : list A) :
  length (sort_by before l) = length l.
Proof. apply Permutation_length, sort_by_Permutation. Qed.

(** [insert_by] and [sort_by] under a strict weak order. *)
Section StableSort.
Context {A : Type}.
Variable before : A -> A -> bool.
Hypothesis before_asym : forall a b, before a b = true -> before b a = false.
Hypothesis before_negtrans :
  forall a b c, before b a = false -> before c b = false -> before c a = false.

Lemma insert_by_sorted (x : A) (l : list A) :
  StronglySorted (fun a b => before b a = false) l ->
  StronglySorted (fun a b => before b a = false) (insert_by before x l).
Proof.
  induction 1 as [| y l Hs IH Hy]; simpl.
  - repeat constructor.
  - destruct (before y x) eqn:E.
    + constructor; [exact IH |].
      rewrite (insert_by_Permutation before x l).
      constructor; [apply before_asym; exact E | exact Hy].
    + constructor; [constructor; assumption |].
      constructor; [exact E |].
      eapply Forall_impl; [exact Hy |].
      intros z Hz. simpl in Hz. eapply before_negtrans; eassumption.
Qed.

Lemma sort_by_sorted (l : list A) :
  StronglySorted (fun a b => before b a = false) (sort_by before l).
Proof.
  induction l as [| x l IH]; simpl; [constructor |].
  apply insert_by_sorted, IH.
Qed.

(** Stability: the elements of any one class of equally ranked elements
    come out in the order they went in.  [same] is the membership test of
    such a class. *)
Lemma sort_by_stable (same : A -> bool) (l : list A) :
  (forall a b, same a = true -> same b = true -> before a b = false) ->
  List.filter same (sort_by before l) = List.filter same l.
Proof.
  intros Hsame.
  assert (forall x l', List.filter same (insert_by before x l')
                       = List.filter same (x :: l')) as Hins.
  { intros x l'. induction l' as [| y l' IH]; [reflexivity |].
    simpl insert_by. destruct (before y x) eqn:E; [| reflexivity].
    simpl. simpl in IH. rewrite IH.
    destruct (same y) eqn:Ey, (same x) eqn:Ex; try reflexivity.
    rewrite (Hsame y x Ey Ex) in E. discriminate. }
  induction l as [| x l IH]; [reflexivity |].
  simpl sort_by. rewrite Hins. simpl. rewrite IH. reflexivity.
Qed.

End StableSort.

Lemma sort_by_map {A B} (f : A -> B) (before : B -> B -> bool) (l : list A) :
  sort_by before (map f l)
  = map f (sort_by (fun a b => before (f a) (f b)) l).
Proof.
  assert (forall x l', insert_by before (f x) (map f l')
            = map f (insert_by (fun a b => before (f a) (f b)) x l')) as Hins.
  { intros x l'. induction l' as [| y l' IH]; [reflexivity |].
    simpl. destruct (before (f y) (f x)); [| reflexivity].
    simpl. rewrite IH. reflexivity. }
  induction l as [| x l IH]; [reflexivity |].
  simpl. rewrite IH. apply Hins.
Qed.

(** ** The nearest-neighbour policy *)

Section RetrieverFacts.
Context {Emb : Type} `{!Backend Emb}.
Variable rows : list (Row Emb).

Lemma retrieve_top_k_pos (query : string) (k : Z) :
  (1 <= k)%Z -> retrieve_top_k rows query k = Ret (pool_of rows query k).
Proof.
  intros Hk. unfold retrieve_top_k, collection_query, pool_of.
  destruct (Z.leb_spec k 0) as [H | _]; [lia | reflexivity].
Qed.

Lemma length_pool_of (query : string) (n : Z) :
  length (pool_of rows query n) = Nat.min (Z.to_nat n) (length rows).
Proof.
  unfold pool_of.
  rewrite length_map, length_take, length_sort_by, length_map. reflexivity.
Qed.

Lemma take_pool_of (query : string) (k n : Z) :
  (k <= n)%Z -> take (Z.to_nat k) (pool_of rows query n) = pool_of rows query k.
Proof.
  intros Hkn. unfold pool_of.
  rewrite <- firstn_map, firstn_map. rewrite <- !firstn_map.
  rewrite take_take. f_equal. lia.
Qed.

(** ** The greedy loop of [retrieve_mmr] *)

Section LoopFacts.
Variable lambda_mult : Q.
Variable query : string.
Variable cands : list Example.

Local Abbreviation embs := (map encode (map user_intent cands)).
Local Abbreviation scan := (mmr_scan lambda_mult (encode query) embs).
Local Abbreviation loop := (mmr_loop lambda_mult (encode query) cands embs).
Local Abbreviation picks := (picks_from cands).
Local Abbreviation scan_inv := (scan_state lambda_mult query cands).

Lemma py_index_embs (i : nat) (c : Example) :
  cands !! i = Some c -> py_index embs i = Ret (encode (user_intent c)).
Proof.
  intros H. unfold py_index.
  change (map encode (map user_intent cands))
    with (encode <$> (user_intent <$> cands)).
  rewrite !list_lookup_fmap, H. reflexivity.
Qed.

Lemma sims_ok (c : Example) (taken : list nat) (chosen : list Example) :
  picks taken chosen ->
  mapM (fun j => ej ← py_index embs j;
                 mret (cosine_similarity
                         (encode (user_intent c)) ej)) taken
  = Ret (map (fun s => similarity
                         (user_intent c) (user_intent s)) chosen).
Proof.
  induction 1 as [| j s taken chosen Hj _ IH]; simpl; [reflexivity |].
  rewrite (py_index_embs _ _ Hj). simpl.
  rewrite IH. reflexivity.
Qed.

Lemma mmr_score_ok (taken : list nat) (chosen : list Example)
    (i : nat) (c : Example) :
  picks taken chosen -> cands !! i = Some c ->
  exists v,
    mmr_score lambda_mult (encode query) embs taken i = Ret v
    /\ v == spec_mmr_score lambda_mult query chosen c.
Proof.
  intros Hp Hi. unfold mmr_score.
  rewrite (py_index_embs _ _ Hi). simpl.
  destruct Hp as [| j s taken chosen Hj Hp].
  - simpl. eexists. split; [reflexivity |].
    unfold spec_mmr_score, similarity. simpl. reflexivity.
  - rewrite (py_index_embs _ _ Hj). simpl.
    rewrite (sims_ok c _ _ Hp). simpl.
    eexists. split; [reflexivity |].
    unfold spec_mmr_score, spec_diversity.
    rewrite (py_max_Qmax _ _ _ (Qeq_refl _)).
    unfold similarity. reflexivity.
Qed.

Lemma mmr_scan_spec (taken : list nat) (chosen : list Example) :
  picks taken chosen ->
  forall rest i best,
    drop i cands = rest ->
    scan_inv taken chosen i best ->
    exists best',
      scan taken i rest best = Ret best' /\
      scan_inv taken chosen (length cands) best'.
Proof.
  intros Hp. induction rest as [| c rest IH]; intros i best Hd Hinv.
  - simpl. exists best. split; [reflexivity |].
    assert (length cands <= i) as Hlen.
    { destruct (Nat.le_gt_cases (length cands) i) as [H | H]; [exact H |].
      apply lookup_lt_is_Some_2 in H as [x Hx].
      rewrite (drop_S _ _ _ Hx) in Hd. discriminate. }
    destruct best as [[v b] |]; simpl in *.
    + destruct Hinv as (Hb & Hnb & Hcb & Hall).
      destruct Hcb as (cb & Hcb & Hv).
      pose proof (lookup_lt_Some _ _ _ Hcb).
      split; [lia |]. split; [exact Hnb |]. split; [eauto |].
      intros j cj _ Hj Hnj. pose proof (lookup_lt_Some _ _ _ Hj).
      apply Hall; [lia | assumption | assumption].
    + intros j Hj. apply Hinv. lia.
  - assert (cands !! i = Some c) as Hi.
    { rewrite <- (Nat.add_0_r i), <- lookup_drop, Hd. reflexivity. }
    assert (drop (S i) cands = rest) as Hd'.
    { rewrite (drop_S _ _ _ Hi) in Hd. congruence. }
    simpl. case_bool_decide as Hin.
    + apply IH; [exact Hd' |].
      destruct best as [[v b] |]; simpl in *.
      * destruct Hinv as (Hb & Hnb & Hcb & Hall).
        split; [lia |]. split; [exact Hnb |]. split; [exact Hcb |].
        intros j cj Hj Hcj Hnj. apply Hall; try assumption.
        assert (j <> i) by (intros ->; contradiction). lia.
      * intros j Hj. destruct (decide (j = i)) as [-> | Hne];
          [exact Hin | apply Hinv; lia].
    + destruct (mmr_score_ok taken chosen i c Hp Hi) as (v & Hv & Hvs).
      rewrite Hv. simpl. apply IH; [exact Hd' |].
      destruct best as [[w b] |]; simpl in *.
      * destruct Hinv as (Hb & Hnb & Hcb & Hall).
        destruct (float_gt v w) eqn:E; simpl.
        -- apply float_gt_lt in E.
           split; [lia |]. split; [exact Hin |]. split; [eauto |].
           intros j cj Hj Hcj Hnj.
           destruct (decide (j = i)) as [-> | Hne].
           ++ assert (cj = c) as -> by congruence. split; [lra | lia].
           ++ destruct (Hall j cj) as [H1 H2]; try assumption; [lia |].
              split; [lra | intros _; lra].
        -- apply float_gt_le in E.
           split; [lia |]. split; [exact Hnb |]. split; [exact Hcb |].
           intros j cj Hj Hcj Hnj.
           destruct (decide (j = i)) as [-> | Hne].
           ++ assert (cj = c) as -> by congruence. split; [lra | lia].
           ++ apply Hall; try assumption. lia.
      * split; [lia |]. split; [exact Hin |]. split; [eauto |].
        intros j cj Hj Hcj Hnj.
        destruct (decide (j = i)) as [-> | Hne].
        -- assert (cj = c) as -> by congruence. split; [lra | lia].
        -- exfalso. apply Hnj, Hinv. lia.
Qed.

Lemma scan_finds (taken : list nat) (chosen : list Example) :
  picks taken chosen -> NoDup taken -> length taken < length cands ->
  exists v b,
    scan taken 0 cands None = Ret (Some (v, b)) /\
    greedy_choice lambda_mult query cands taken chosen b.
Proof.
  intros Hp Hnd Hlen.
  destruct (mmr_scan_spec taken chosen Hp cands 0 None) as (best & Hs & Hinv).
  { reflexivity. }
  { simpl. intros j Hj. lia. }
  destruct best as [[v b] |]; simpl in Hinv.
  - exists v, b. split; [exact Hs |].
    destruct Hinv as (_ & Hnb & (cb & Hcb & Hv) & Hall).
    exists cb. split; [exact Hcb |]. split; [exact Hnb |].
    intros j cj Hj Hnj. pose proof (lookup_lt_Some _ _ _ Hj) as Hlt.
    destruct (Hall j cj Hlt Hj Hnj) as [H1 H2].
    split; [lra | intros Hjb; specialize (H2 Hjb); lra].
  - exfalso.
    assert (seq 0 (length cands) ⊆+ taken) as Hsub.
    { apply NoDup_submseteq; [apply NoDup_seq |].
      intros j Hj. apply elem_of_seq in Hj. apply Hinv. lia. }
    apply submseteq_length in Hsub. rewrite length_seq in Hsub. lia.
Qed.

(** The [while] loop from a state [(chosen, taken)]: with fuel for the
    remaining iterations it returns, having appended one greedy choice per
    iteration. *)
Lemma mmr_loop_spec (k : Z) : forall fuel chosen taken,
  picks taken chosen -> NoDup taken ->
  (k < Z.of_nat (length cands))%Z ->
  (k - Z.of_nat (length taken) <= Z.of_nat fuel)%Z ->
  exists chosen' taken',
    loop fuel k chosen taken = Ret (chosen', taken') /\
    picks taken' chosen' /\ NoDup taken' /\
    length taken' = Nat.max (Z.to_nat k) (length taken) /\
    take (length taken) taken' = taken /\
    take (length taken) chosen' = chosen /\
    forall t b, length taken <= t -> taken' !! t = Some b ->
      greedy_choice lambda_mult query cands (take t taken') (take t chosen') b.
Proof.
  induction fuel as [| fuel IH]; intros chosen taken Hp Hnd Hk Hfuel;
    pose proof (Forall2_length _ _ _ Hp) as Hlen.
  - simpl. destruct (Z.ltb_spec (Z.of_nat (length chosen)) k) as [H | H];
      [lia |].
    exists chosen, taken. split; [reflexivity |].
    split; [exact Hp |]. split; [exact Hnd |].
    split; [lia |]. split; [apply take_ge; lia |].
    split; [apply take_ge; lia |].
    intros t b Ht Hb. apply lookup_lt_Some in Hb. lia.
  - simpl. destruct (Z.ltb_spec (Z.of_nat (length chosen)) k) as [H | H].
    + destruct (scan_finds taken chosen Hp Hnd) as (v & b & Hs & Hg); [lia |].
      rewrite Hs. simpl.
      destruct Hg as (cb & Hcb & Hnb & Hbest).
      unfold py_index. rewrite Hcb. simpl.
      destruct (IH (chosen ++ [cb]) (taken ++ [b]))
        as (chosen' & taken' & Hl & Hp' & Hnd' & Hlen' & Ht' & Hc' & Hstep).
      { apply Forall2_app; [exact Hp |]. constructor; [exact Hcb |
          constructor]. }
      { apply NoDup_app. split; [exact Hnd |]. split; [| apply NoDup_singleton].
        intros x Hx Hx'. apply list_elem_of_singleton in Hx'. subst x.
        contradiction. }
      { exact Hk. }
      { rewrite length_app. simpl. lia. }
      rewrite !length_app in *. simpl in *.
      exists chosen', taken'. split; [exact Hl |].
      split; [exact Hp' |]. split; [exact Hnd' |].
      assert (take (length taken) taken' = taken) as Ht.
      { rewrite <- (take_app_length taken [b]) at 2. rewrite <- Ht'.
        rewrite take_take. f_equal. lia. }
      assert (take (length taken) chosen' = chosen) as Hc.
      { rewrite Hlen. rewrite <- (take_app_length chosen [cb]) at 2.
        rewrite <- Hc', take_take. f_equal. lia. }
      split; [lia |]. split; [exact Ht |]. split; [exact Hc |].
      intros t b' Hle Hb'.
      destruct (decide (t = length taken)) as [-> | Hne].
      * rewrite Ht, Hc.
        assert (b' = b) as ->.
        { rewrite <- (lookup_take_lt _ (length taken + 1)) in Hb' by lia.
          rewrite Ht' in Hb'.
          rewrite list_lookup_middle in Hb' by reflexivity. congruence. }
        exists cb. split; [exact Hcb |]. split; [exact Hnb |]. exact Hbest.
      * apply Hstep; [lia | exact Hb'].
    + exists chosen, taken. split; [reflexivity |].
      split; [exact Hp |]. split; [exact Hnd |].
      split; [lia |]. split; [apply take_ge; lia |].
      split; [apply take_ge; lia |].
      intros t b Ht Hb. apply lookup_lt_Some in Hb. lia.
Qed.

(** With less fuel than iterations remain, the loop is cut short. *)
Lemma mmr_loop_short (k : Z) : forall fuel chosen taken,
  picks taken chosen -> NoDup taken ->
  (k < Z.of_nat (length cands))%Z ->
  (Z.of_nat fuel < k - Z.of_nat (length taken))%Z ->
  loop fuel k chosen taken = OutOfFuel.
Proof.
  induction fuel as [| fuel IH]; intros chosen taken Hp Hnd Hk Hfuel;
    pose proof (Forall2_length _ _ _ Hp) as Hlen; simpl;
    destruct (Z.ltb_spec (Z.of_nat (length chosen)) k) as [H | H];
    try lia; [reflexivity |].
  destruct (scan_finds taken chosen Hp Hnd) as (v & b & Hs & Hg); [lia |].
  rewrite Hs. simpl.
  destruct Hg as (cb & Hcb & Hnb & _).
  unfold py_index. rewrite Hcb. simpl.
  apply IH.
  - apply Forall2_app; [exact Hp |]. constructor; [exact Hcb | constructor].
  - apply NoDup_app. split; [exact Hnd |]. split; [| apply NoDup_singleton].
    intros x Hx Hx'. apply list_elem_of_singleton in Hx'. subst x.
    contradiction.
  - exact Hk.
  - rewrite length_app. simpl. lia.
Qed.

End LoopFacts.

(** The run of [retrieve_mmr] on a pool larger than [k]. *)
Lemma mmr_run (fuel : nat) (query : string) (k fetch_k : Z) (lambda_mult : Q) :
  (1 <= fetch_k)%Z ->
  (k < Z.of_nat (length (pool_of rows query fetch_k)))%Z ->
  (k <= Z.of_nat fuel)%Z ->
  exists sel idx,
    mmr_select fuel query k lambda_mult (pool_of rows query fetch_k)
    = Ret (sel, idx) /\
    retrieve_mmr rows fuel query k fetch_k lambda_mult = Ret sel /\
    picks_from (pool_of rows query fetch_k) idx sel /\
    NoDup idx /\
    length idx = Z.to_nat k /\
    forall t b, idx !! t = Some b ->
      greedy_choice lambda_mult query (pool_of rows query fetch_k)
                    (take t idx) (take t sel) b.
Proof.
  intros Hf Hk Hfuel.
  set (cands := pool_of rows query fetch_k) in *.
  destruct (mmr_loop_spec lambda_mult query cands k fuel [] [])
    as (sel & idx & Hl & Hp & Hnd & Hlen & _ & _ & Hstep).
  { constructor. }
  { constructor. }
  { exact Hk. }
  { simpl. lia. }
  exists sel, idx. split; [exact Hl |].
  split.
  { unfold retrieve_mmr. rewrite retrieve_top_k_pos by exact Hf. simpl.
    fold cands.
    destruct (Z.leb_spec (Z.of_nat (length cands)) k) as [H | _]; [lia |].
    unfold mmr_select in Hl. unfold mmr_select. rewrite Hl. reflexivity. }
  split; [exact Hp |]. split; [exact Hnd |].
  split; [simpl in Hlen; lia |].
  intros t b Hb. apply Hstep; [simpl; lia | exact Hb].
Qed.

(** A pool of at most [k] candidates is returned as fetched. *)
Lemma retrieve_mmr_small (fuel : nat) (query : string) (k fetch_k : Z)
    (lambda_mult : Q) :
  (1 <= fetch_k)%Z ->
  (Z.of_nat (length (pool_of rows query fetch_k)) <= k)%Z ->
  retrieve_mmr rows fuel query k fetch_k lambda_mult
  = Ret (pool_of rows query fetch_k).
Proof.
  intros Hf Hsmall. unfold retrieve_mmr.
  rewrite retrieve_top_k_pos by exact Hf. simpl.
  destruct (Z.leb_spec (Z.of_nat (length (pool_of rows query fetch_k))) k)
    as [_ | H]; [reflexivity | lia].
Qed.

(** On a larger pool, fuel below [k] does not reach the [return]. *)
Lemma retrieve_mmr_short (fuel : nat) (query : string) (k fetch_k : Z)
    (lambda_mult : Q) :
  (1 <= fetch_k)%Z ->
  (k < Z.of_nat (length (pool_of rows query fetch_k)))%Z ->
  (Z.of_nat fuel < k)%Z ->
  retrieve_mmr rows fuel query k fetch_k lambda_mult = OutOfFuel.
Proof.
  intros Hf Hbig Hfuel. unfold retrieve_mmr.
  rewrite retrieve_top_k_pos by exact Hf. simpl.
  destruct (Z.leb_spec (Z.of_nat (length (pool_of rows query fetch_k))) k)
    as [H | _]; [lia |].
  unfold mmr_select. rewrite mmr_loop_short; try reflexivity;
    try constructor; simpl; lia.
Qed.

(** C1.  On a pool larger than [k], [retrieve_mmr] returns, and its output
    is built greedily: the candidate selected at step [t] is unselected so
    far and has the highest score lambda * relevance + (1 - lambda) *
    diversity among the unselected candidates, diversity being taken against
    the [t] candidates selected before; among equal scores the candidate of
    lower rank in the pool is the one selected. *)
Theorem retrieve_mmr_greedy (fuel : nat) (query : string) (k fetch_k : Z)
    (lambda_mult : Q) :
  (1 <= fetch_k)%Z ->
  (k < Z.of_nat (length (pool_of rows query fetch_k)))%Z ->
  (k <= Z.of_nat fuel)%Z ->
  exists sel idx,
    mmr_select fuel query k lambda_mult (pool_of rows query fetch_k)
    = Ret (sel, idx) /\
    retrieve_mmr rows fuel query k fetch_k lambda_mult = Ret sel /\
    length sel = Z.to_nat k /\
    forall t b, idx !! t = Some b ->
      sel !! t = pool_of rows query fetch_k !! b /\
      greedy_choice lambda_mult query (pool_of rows query fetch_k)
                    (take t idx) (take t sel) b.
Proof.
  intros Hf Hk Hfuel.
  destruct (mmr_run fuel query k fetch_k lambda_mult Hf Hk Hfuel)
    as (sel & idx & Hs & Hm & Hp & _ & Hlen & Hstep).
  exists sel, idx. split; [exact Hs |]. split; [exact Hm |].
  split; [rewrite <- (Forall2_length _ _ _ Hp); exact Hlen |].
  intros t b Hb. split; [| apply Hstep; exact Hb].
  destruct (Forall2_lookup_l _ _ _ _ _ Hp Hb) as (c & Hc & Hbc).
  congruence.
Qed.

(** C8.  [retrieve_mmr] terminates: a pool of size at most [k] is returned
    as it is, before the loop and whatever the fuel; on a larger pool the
    loop body runs exactly [k] times: fuel [k] is enough for it to return
    [k] candidates, and any smaller amount is used up. *)
Theorem retrieve_mmr_terminates (query : string) (k fetch_k : Z)
    (lambda_mult : Q) :
  (1 <= k)%Z -> (k <= fetch_k)%Z ->
  ((Z.of_nat (length (pool_of rows query fetch_k)) <= k)%Z ->
   forall fuel,
     retrieve_mmr rows fuel query k fetch_k lambda_mult
     = Ret (pool_of rows query fetch_k)) /\
  ((k < Z.of_nat (length (pool_of rows query fetch_k)))%Z ->
   forall fuel,
     ((k <= Z.of_nat fuel)%Z ->
      exists sel,
        retrieve_mmr rows fuel query k fetch_k lambda_mult = Ret sel /\
        Z.of_nat (length sel) = k) /\
     ((Z.of_nat fuel < k)%Z ->
      retrieve_mmr rows fuel query k fetch_k lambda_mult = OutOfFuel)).
Proof.
  intros Hk Hf. split.
  - intros Hsmall fuel. apply retrieve_mmr_small; [lia | exact Hsmall].
  - intros Hbig fuel. split.
    + intros Hfuel.
      destruct (mmr_run fuel query k fetch_k lambda_mult) as
        (sel & idx & _ & Hm & Hp & _ & Hlen & _); try lia.
      exists sel. split; [exact Hm |].
      rewrite <- (Forall2_length _ _ _ Hp). lia.
    + intros Hfuel. apply retrieve_mmr_short; [lia | exact Hbig | exact Hfuel].
Qed.

(** C9.  On a pool larger than [k], for every [lambda_mult], the candidates
    [retrieve_mmr] returns sit at [k] pairwise distinct positions of the
    pool. *)
Theorem retrieve_mmr_distinct (fuel : nat) (query : string) (k fetch_k : Z)
    (lambda_mult : Q) :
  (1 <= fetch_k)%Z ->
  (k < Z.of_nat (length (pool_of rows query fetch_k)))%Z ->
  (k <= Z.of_nat fuel)%Z ->
  exists sel idx,
    mmr_select fuel query k lambda_mult (pool_of rows query fetch_k)
    = Ret (sel, idx) /\
    retrieve_mmr rows fuel query k fetch_k lambda_mult = Ret sel /\
    NoDup idx /\
    length idx = Z.to_nat k /\
    Forall2 (fun i c => pool_of rows query fetch_k !! i = Some c) idx sel.
Proof.
  intros Hf Hk Hfuel.
  destruct (mmr_run fuel query k fetch_k lambda_mult Hf Hk Hfuel)
    as (sel & idx & Hs & Hm & Hp & Hnd & Hlen & _).
  exists sel, idx. repeat split; assumption.
Qed.

(** With [lambda_mult = 1] the score is the relevance. *)
Lemma score_lambda_one (lambda_mult : Q) (query : string)
    (chosen : list Example) (c : Example) :
  lambda_mult == 1 ->
  spec_mmr_score lambda_mult query chosen c
  == similarity query (user_intent c).
Proof. intros H. unfold spec_mmr_score. rewrite H. ring. Qed.

(** C5, as the code has it.  With [lambda_mult = 1] and a pool larger than
    [k], [retrieve_mmr] returns what [retrieve_top_k] returns for the same
    [k], provided the cosine similarity to the query does not increase along
    the pool, that is, provided the order of the index agrees with the
    similarity the loop scores by. *)
Theorem retrieve_mmr_lambda_one (fuel : nat) (query : string) (k fetch_k : Z)
    (lambda_mult : Q) :
  (1 <= k)%Z -> (k <= fetch_k)%Z ->
  (k < Z.of_nat (length (pool_of rows query fetch_k)))%Z ->
  (k <= Z.of_nat fuel)%Z ->
  lambda_mult == 1 ->
  (forall i j ci cj, i < j ->
     pool_of rows query fetch_k !! i = Some ci ->
     pool_of rows query fetch_k !! j = Some cj ->
     (similarity query (user_intent cj)
      <= similarity query (user_intent ci))%Q) ->
  retrieve_mmr rows fuel query k fetch_k lambda_mult
  = retrieve_top_k rows query k.
Proof.
  intros Hk Hf Hbig Hfuel Hlam Hmono.
  destruct (mmr_run fuel query k fetch_k lambda_mult) as
    (sel & idx & _ & Hm & Hp & _ & Hlen & Hstep); try lia.
  rewrite Hm, retrieve_top_k_pos by exact Hk. f_equal.
  rewrite <- (take_pool_of query k fetch_k Hf).
  set (cands := pool_of rows query fetch_k) in *.
  assert (forall t, t < length idx -> idx !! t = Some t) as Hid.
  { intros t. induction t as [t IHt] using lt_wf_ind. intros Ht.
    destruct (lookup_lt_is_Some_2 idx t Ht) as [b Hb].
    destruct (Hstep t b Hb) as (cb & Hcb & Hnb & Hbest).
    assert (take t idx = seq 0 t) as Hpre.
    { apply list_eq. intros i. rewrite lookup_take.
      destruct (decide (i < t)) as [Hi | Hi].
      - rewrite IHt by lia. symmetry. apply lookup_seq. lia.
      - symmetry. apply lookup_ge_None_2. rewrite length_seq. lia. }
    rewrite Hpre in Hnb, Hbest.
    assert (t <= b) as Hge.
    { destruct (Nat.le_gt_cases t b) as [H | H]; [exact H |].
      exfalso. apply Hnb, elem_of_seq. lia. }
    destruct (decide (b = t)) as [-> | Hne]; [exact Hb |]. exfalso.
    pose proof (lookup_lt_Some _ _ _ Hcb) as Hbn.
    destruct (lookup_lt_is_Some_2 cands t) as [ct Hct]; [lia |].
    destruct (Hbest t ct Hct) as [_ Hlt].
    { rewrite elem_of_seq. lia. }
    specialize (Hlt ltac:(lia)).
    rewrite !score_lambda_one in Hlt by exact Hlam.
    pose proof (Hmono t b ct cb ltac:(lia) Hct Hcb). lra. }
  apply list_eq. intros t.
  pose proof (Forall2_length _ _ _ Hp) as Hlen'.
  rewrite lookup_take.
  destruct (decide (t < Z.to_nat k)) as [Ht | Ht].
  - destruct (Forall2_lookup_l _ _ _ _ _ Hp (Hid t ltac:(lia)))
      as (c & Hc & Hpc).
    congruence.
  - apply lookup_ge_None_2. lia.
Qed.

(** ** The hybrid policy *)

Lemma hybrid_score_no_token (query_keywords : gset string) (w : Q)
    (c : Example) :
  size query_keywords = 0%nat ->
  hybrid_score query_keywords w c = Raise ZeroDivisionError.
Proof. intros H. unfold hybrid_score, int_truediv. rewrite H. reflexivity. Qed.

Lemma hybrid_score_ok (query : string) (w : Q) (c : Example) :
  size (keywords query) <> 0%nat -> ~ 1 + distance c == 0 ->
  hybrid_score (keywords query) w c
  = Ret (set_combined_score (spec_combined_score query w c) c).
Proof.
  intros Hq Hd. unfold hybrid_score.
  rewrite int_truediv_ok by exact Hq. simpl.
  rewrite float_truediv_ok by exact Hd. simpl.
  unfold spec_combined_score, spec_keyword_score.
  destruct (Nat.eqb_spec (size (keywords query)) 0) as [E | _];
    [contradiction | reflexivity].
Qed.

(** Whatever the candidate, the loop body returns it with its score set or
    raises [ZeroDivisionError]. *)
Lemma hybrid_score_cases (query_keywords : gset string) (w : Q) (c : Example) :
  (exists s, hybrid_score query_keywords w c = Ret (set_combined_score s c))
  \/ hybrid_score query_keywords w c = Raise ZeroDivisionError.
Proof.
  unfold hybrid_score, int_truediv, float_truediv.
  destruct (Nat.eqb _ 0); [right; reflexivity |]. simpl.
  destruct (Qeq_bool _ 0); [right; reflexivity |]. simpl.
  left. eexists. reflexivity.
Qed.

Lemma zip_decorate {A B} (f : A -> B) (l : list A) :
  zip (map f l) l = map (fun x => (f x, x)) l.
Proof. induction l as [| x l IH]; simpl; [| rewrite IH]; reflexivity. Qed.

Lemma sort_combined_desc_scored (l : list Example) :
  Forall (fun ex => is_Some (combined_score ex)) l ->
  sort_combined_desc l
  = Ret (sort_by (fun a b => float_gt (score_of a) (score_of b)) l).
Proof.
  intros Hl. unfold sort_combined_desc.
  rewrite (mapM_Ret get_combined_score score_of).
  - simpl. rewrite zip_decorate.
    rewrite (sort_by_map (fun x => (score_of x, x))
                         (fun a b => float_gt a.1 b.1)).
    rewrite map_map. simpl. rewrite map_id. reflexivity.
  - eapply Forall_impl; [exact Hl |].
    intros ex [s Hs]. unfold get_combined_score, score_of. rewrite Hs.
    reflexivity.
Qed.

(** What [retrieve_hybrid] returns for a query with at least one token:
    the first [k] of [ranked], which holds the [2k] nearest candidates, each
    with its combined score, larger scores first and equal scores in the
    order of the pool. *)
Lemma retrieve_hybrid_ranked (query : string) (k : Z) (w : Q) :
  (1 <= k)%Z ->
  size (keywords query) <> 0%nat ->
  Forall (fun c => ~ 1 + distance c == 0) (pool_of rows query (k * 2)) ->
  exists ranked,
    retrieve_hybrid rows query k w = Ret (take (Z.to_nat k) ranked) /\
    ranked ≡ₚ scored_pool rows query k w /\
    StronglySorted (fun a b => (score_of b <= score_of a)%Q) ranked /\
    forall s,
      List.filter (fun ex => Qeq_bool (score_of ex) s) ranked
      = List.filter (fun ex => Qeq_bool (score_of ex) s)
                    (scored_pool rows query k w).
Proof.
  intros Hk Hq Hd.
  set (bef := fun a b : Example => float_gt (score_of a) (score_of b)).
  exists (sort_by bef (scored_pool rows query k w)).
  split; [| split; [| split]].
  - unfold retrieve_hybrid. rewrite retrieve_top_k_pos by lia. simpl.
    rewrite (mapM_Ret _ (fun c => set_combined_score
                                    (spec_combined_score query w c) c)).
    + simpl. rewrite sort_combined_desc_scored.
      * simpl. unfold slice_to.
        destruct (Z.ltb_spec k 0) as [H | _]; [lia | reflexivity].
      * apply List.Forall_map, Forall_true. intros c. eexists. reflexivity.
    + eapply Forall_impl; [exact Hd |].
      intros c Hc. apply hybrid_score_ok; assumption.
  - apply sort_by_Permutation.
  - assert (StronglySorted (fun a b => bef b a = false)
                           (sort_by bef (scored_pool rows query k w))) as Hs.
    { apply sort_by_sorted.
      - intros a b H. apply float_gt_lt in H. apply float_gt_le. lra.
      - intros a b c H1 H2. apply float_gt_le in H1, H2.
        apply float_gt_le. lra. }
    induction Hs as [| a l _ IH Ha]; constructor; [exact IH |].
    eapply Forall_impl; [exact Ha |].
    intros b H. apply float_gt_le in H. exact H.
  - intros s. apply sort_by_stable.
    intros a b Ha Hb. apply Qeq_bool_iff in Ha, Hb.
    apply float_gt_le. lra.
Qed.

(** A query without any token over a non-empty corpus: the first candidate
    already makes the loop raise. *)
Lemma retrieve_hybrid_no_token (query : string) (k : Z) (w : Q) :
  (1 <= k)%Z -> rows <> [] -> size (keywords query) = 0%nat ->
  retrieve_hybrid rows query k w = Raise ZeroDivisionError.
Proof.
  intros Hk Hrows Hq. unfold retrieve_hybrid.
  rewrite retrieve_top_k_pos by lia. simpl.
  pose proof (length_pool_of query (k * 2)) as Hlen.
  destruct (pool_of rows query (k * 2)) as [| c cs].
  - destruct rows; [contradiction | simpl in Hlen; lia].
  - simpl. rewrite hybrid_score_no_token by exact Hq. reflexivity.
Qed.

(** ** Outcomes of the three policies *)

Lemma retrieve_mmr_never_raises (fuel : nat) (query : string) (k fetch_k : Z)
    (lambda_mult : Q) (e : exn) :
  (1 <= fetch_k)%Z -> retrieve_mmr rows fuel query k fetch_k lambda_mult <>
      Raise e.
Proof.
  intros Hf.
  destruct (Z.le_gt_cases (Z.of_nat (length (pool_of rows query fetch_k))) k)
      as [H | H].
  - rewrite retrieve_mmr_small by assumption. discriminate.
  - destruct (Z.le_gt_cases k (Z.of_nat fuel)) as [H' | H'].
    + destruct (mmr_run fuel query k fetch_k lambda_mult) as
        (sel & idx & _ & Hm & _); try lia.
      rewrite Hm. discriminate.
    + rewrite retrieve_mmr_short by lia. discriminate.
Qed.

Lemma mapM_hybrid_score_cases (query_keywords : gset string) (w : Q)
    (l : list Example) :
  (exists l',
     mapM (hybrid_score query_keywords w) l = Ret l' /\
     Forall2 (fun c ex => exists s, ex = set_combined_score s c) l l')
  \/ mapM (hybrid_score query_keywords w) l = Raise ZeroDivisionError.
Proof.
  induction l as [| c l IH]; simpl.
  - left. exists []. split; [reflexivity | constructor].
  - destruct (hybrid_score_cases query_keywords w c) as [[s Hs] | Hs];
      rewrite Hs; simpl; [| right; reflexivity].
    destruct IH as [(l' & Hl' & Hall) | Hl']; rewrite Hl'; simpl;
      [| right; reflexivity].
    left. eexists. split; [reflexivity |].
    constructor; [eauto | exact Hall].
Qed.

Lemma scored_is_Some (l l' : list Example) :
  Forall2 (fun c ex => exists s, ex = set_combined_score s c) l l' ->
  Forall (fun ex => is_Some (combined_score ex)) l'.
Proof.
  induction 1 as [| c ex l l' [s ->] _ IH]; constructor; [| exact IH].
  eexists. reflexivity.
Qed.

Lemma slice_to_subseteq {A} (l : list A) (k : Z) (x : A) :
  x ∈ slice_to l k -> x ∈ l.
Proof.
  unfold slice_to. destruct (k <? 0)%Z; apply subseteq_take.
Qed.

(** When [retrieve_hybrid] returns, every exemplar of its answer is a
    candidate of the semantic search with the score set. *)
Lemma retrieve_hybrid_inv (query : string) (k : Z) (w : Q) (l : list Example) :
  retrieve_hybrid rows query k w = Ret l ->
  exists cands,
    retrieve_top_k rows query (k * 2) = Ret cands /\
    forall ex, ex ∈ l ->
      exists c s, c ∈ cands /\ ex = set_combined_score s c.
Proof.
  unfold retrieve_hybrid. intros H.
  destruct (retrieve_top_k rows query (k * 2)) as [cands | e |]; simpl in H;
    try discriminate.
  exists cands. split; [reflexivity |].
  destruct (mapM_hybrid_score_cases (keywords query) w cands)
    as [(scored & Hs & Hall) | Hs]; rewrite Hs in H; simpl in H;
    [| discriminate].
  rewrite sort_combined_desc_scored in H by (eapply scored_is_Some; eauto).
  simpl in H. injection H as <-.
  intros ex Hex. apply slice_to_subseteq in Hex.
  rewrite sort_by_Permutation in Hex.
  apply list_elem_of_lookup in Hex as [i Hi].
  destruct (Forall2_lookup_r _ _ _ _ _ Hall Hi) as (c & Hc & s & ->).
  exists c, s. split; [| reflexivity].
  apply list_elem_of_lookup. eauto.
Qed.

Lemma retrieve_hybrid_outcome (query : string) (k : Z) (w : Q) :
  (1 <= k)%Z ->
  (exists l, retrieve_hybrid rows query k w = Ret l)
  \/ retrieve_hybrid rows query k w = Raise ZeroDivisionError.
Proof.
  intros Hk. unfold retrieve_hybrid.
  rewrite retrieve_top_k_pos by lia. simpl.
  destruct (mapM_hybrid_score_cases (keywords query) w (pool_of rows query (k *
      2)))
    as [(scored & Hs & Hall) | Hs]; rewrite Hs; simpl;
    [| right; reflexivity].
  rewrite sort_combined_desc_scored by (eapply scored_is_Some; eauto).
  left. eexists. reflexivity.
Qed.

Lemma retrieve_top_k_no_score (query : string) (k : Z) (l : list Example) :
  retrieve_top_k rows query k = Ret l -> Forall (fun ex => combined_score ex =
      None) l.
Proof.
  unfold retrieve_top_k. intros H.
  destruct (collection_query _ _ _) as [hits | e |]; simpl in H;
    try discriminate.
  injection H as <-. apply List.Forall_map, Forall_true. reflexivity.
Qed.

(** Whatever the pool and the fuel, the loop only ever selects candidates
    of the pool. *)
Lemma mmr_loop_picks (lambda_mult : Q) (qe : Emb) (cands : list Example)
    (embs : list Emb) (k : Z) :
  forall fuel chosen taken chosen' taken',
    picks_from cands taken chosen ->
    mmr_loop lambda_mult qe cands embs fuel k chosen taken
    = Ret (chosen', taken') ->
    picks_from cands taken' chosen'.
Proof.
  induction fuel as [| fuel IH]; intros chosen taken chosen' taken' Hp H;
    simpl in H; destruct (_ <? _)%Z; try discriminate;
    try (injection H as <- <-; exact Hp).
  destruct (mmr_scan _ _ _ _ _ _ _) as [[[v b] |] | e |]; simpl in H;
    try discriminate.
  - unfold py_index in H. destruct (cands !! b) as [cb |] eqn:Hb; simpl in H;
      [| discriminate].
    eapply IH; [| exact H].
    apply Forall2_app; [exact Hp |]. constructor; [exact Hb | constructor].
  - eapply IH; eassumption.
Qed.

Lemma retrieve_mmr_no_score (fuel : nat) (query : string) (k fetch_k : Z)
    (lambda_mult : Q) (l : list Example) :
  retrieve_mmr rows fuel query k fetch_k lambda_mult = Ret l ->
  Forall (fun ex => combined_score ex = None) l.
Proof.
  unfold retrieve_mmr. intros H.
  destruct (retrieve_top_k rows query fetch_k) as [cands | e |] eqn:Ht; simpl
      in H;
    try discriminate.
  pose proof (retrieve_top_k_no_score _ _ _ Ht) as Hc.
  destruct (_ <=? _)%Z.
  - injection H as <-. exact Hc.
  - unfold mmr_select in H.
    destruct (mmr_loop _ _ _ _ _ _ _ _) as [[sel idx] | e |] eqn:Hl;
      simpl in H; try discriminate.
    injection H as <-.
    apply mmr_loop_picks in Hl; [| constructor].
    apply Forall_forall. intros ex Hex.
    apply list_elem_of_lookup in Hex as [i Hi].
    destruct (Forall2_lookup_r _ _ _ _ _ Hl Hi) as (j & _ & Hj).
    rewrite Forall_forall in Hc. apply Hc.
    apply list_elem_of_lookup. eauto.
Qed.

(** ** The claims on the three policies together *)

(** C2, as the code has it.  For [k >= 1] the nearest-neighbour policy
    returns min(k, corpus size) exemplars; the diversity policy returns
    min(k, fetch_k, corpus size) of them; the hybrid policy, for a query
    with at least one token, returns min(k, corpus size). *)
Theorem exemplar_list_length (fuel : nat) (query : string) (k fetch_k : Z)
    (lambda_mult w : Q) :
  (1 <= k)%Z ->
  (exists l, retrieve_top_k rows query k = Ret l /\
             length l = Nat.min (Z.to_nat k) (length rows)) /\
  ((1 <= fetch_k)%Z -> (k <= Z.of_nat fuel)%Z ->
   exists l, retrieve_mmr rows fuel query k fetch_k lambda_mult = Ret l /\
             length l = Nat.min (Z.to_nat k)
                                (Nat.min (Z.to_nat fetch_k) (length rows))) /\
  (size (keywords query) <> 0%nat ->
   Forall (fun c => ~ 1 + distance c == 0) (pool_of rows query (k * 2)) ->
   exists l, retrieve_hybrid rows query k w = Ret l /\
             length l = Nat.min (Z.to_nat k) (length rows)).
Proof.
  intros Hk. split; [| split].
  - exists (pool_of rows query k). split; [apply retrieve_top_k_pos; exact Hk
      |].
    apply length_pool_of.
  - intros Hf Hfuel.
    pose proof (length_pool_of query fetch_k) as Hlen.
    destruct (Z.le_gt_cases (Z.of_nat (length (pool_of rows query fetch_k))) k)
      as [H | H].
    + exists (pool_of rows query fetch_k).
      split; [apply retrieve_mmr_small; assumption | lia].
    + destruct (mmr_run fuel query k fetch_k lambda_mult) as
        (sel & idx & _ & Hm & Hp & _ & Hidx & _); try assumption.
      exists sel. split; [exact Hm |].
      rewrite <- (Forall2_length _ _ _ Hp). lia.
  - intros Hq Hd.
    destruct (retrieve_hybrid_ranked query k w Hk Hq Hd)
      as (ranked & Hr & Hperm & _).
    exists (take (Z.to_nat k) ranked). split; [exact Hr |].
    rewrite length_take, (Permutation_length Hperm).
    unfold scored_pool. rewrite length_map, length_pool_of. lia.
Qed.

(** C3, as the code has it.  [retrieve_examples] raises [ValueError] when
    the strategy is none of topk, mmr and hybrid, and for [k >= 1] only
    then.  It checks neither [k] nor [fetch_k]: under mmr, whose [fetch_k]
    is always 20, [k <= 0] over a non-empty corpus gives the empty list and
    [k >= 20] gives the fetched pool. *)
Theorem retrieve_examples_errors (fuel : nat) (strategy : string) (k : Z)
    (query : string) :
  (strategy ∉ ["topk"; "mmr"; "hybrid"] ->
   retrieve_examples rows fuel strategy k query
   = Raise (ValueError ("Unknown retrieval strategy: " +:+ strategy))) /\
  (strategy ∈ ["topk"; "mmr"; "hybrid"] -> (1 <= k)%Z ->
   forall msg,
     retrieve_examples rows fuel strategy k query <> Raise (ValueError msg)) /\
  ((k <= 0)%Z -> rows <> [] ->
   retrieve_examples rows fuel "mmr" k query = Ret []) /\
  ((20 <= k)%Z ->
   retrieve_examples rows fuel "mmr" k query = Ret (pool_of rows query 20)).
Proof.
  split; [| split; [| split]].
  - intros Hs. unfold retrieve_examples.
    destruct (String.eqb_spec strategy "topk") as [-> | _];
      [exfalso; apply Hs, list_elem_of_here |].
    destruct (String.eqb_spec strategy "mmr") as [-> | _];
      [exfalso; apply Hs, list_elem_of_further, list_elem_of_here |].
    destruct (String.eqb_spec strategy "hybrid") as [-> | _];
      [exfalso; apply Hs; do 2 apply list_elem_of_further;
       apply list_elem_of_here |].
    reflexivity.
  - intros Hs Hk msg. unfold retrieve_examples.
    destruct (String.eqb_spec strategy "topk") as [-> | H1].
    { rewrite retrieve_top_k_pos by exact Hk. discriminate. }
    destruct (String.eqb_spec strategy "mmr") as [-> | H2].
    { apply retrieve_mmr_never_raises. lia. }
    destruct (String.eqb_spec strategy "hybrid") as [-> | H3].
    { destruct (retrieve_hybrid_outcome query k (3 # 10) Hk) as [[l Hl] | Hl];
        rewrite Hl; discriminate. }
    exfalso.
    repeat (apply elem_of_cons in Hs as [Hs | Hs]; [contradiction |]).
    inversion Hs.
  - intros Hk Hrows. unfold retrieve_examples. simpl.
    unfold retrieve_mmr. rewrite retrieve_top_k_pos by lia. simpl.
    pose proof (length_pool_of query 20) as Hlen.
    destruct (Z.leb_spec (Z.of_nat (length (pool_of rows query 20))) k) as [H |
        _].
    { destruct rows; [contradiction | simpl in Hlen; lia]. }
    unfold mmr_select. destruct fuel; simpl;
      destruct (Z.ltb_spec (Z.of_nat 0) k) as [H | _];
      try (simpl in H; lia); reflexivity.
  - intros Hk. unfold retrieve_examples. simpl.
    apply retrieve_mmr_small; [lia |].
    pose proof (length_pool_of query 20). lia.
Qed.

(** C4.  The keyword score is computed with an unguarded division by the
    number of query tokens: for a query without any token over a non-empty
    corpus [retrieve_hybrid] raises [ZeroDivisionError]. *)
Theorem retrieve_hybrid_divides_by_zero (query : string) (k : Z) (w : Q) :
  (1 <= k)%Z -> rows <> [] -> size (keywords query) = 0%nat ->
  retrieve_hybrid rows query k w = Raise ZeroDivisionError.
Proof. apply retrieve_hybrid_no_token. Qed.

(** C10.  Every exemplar [retrieve_hybrid] returns is a candidate of its
    semantic search with the key [combined_score] added and the four other
    fields as they were; the exemplars of [retrieve_top_k] and of
    [retrieve_mmr] do not have that key. *)
Theorem hybrid_adds_combined_score (fuel : nat) (query : string)
    (k fetch_k : Z) (lambda_mult w : Q) :
  (forall l, retrieve_hybrid rows query k w = Ret l ->
     exists cands,
       retrieve_top_k rows query (k * 2) = Ret cands /\
       forall ex, ex ∈ l ->
         exists c s,
           c ∈ cands /\ combined_score c = None /\
           combined_score ex = Some s /\
           user_intent ex = user_intent c /\
           tmf921_intent ex = tmf921_intent c /\
           distance ex = distance c /\
           id ex = id c) /\
  (forall l, retrieve_top_k rows query k = Ret l ->
     Forall (fun ex => combined_score ex = None) l) /\
  (forall l, retrieve_mmr rows fuel query k fetch_k lambda_mult = Ret l ->
     Forall (fun ex => combined_score ex = None) l).
Proof.
  split; [| split].
  - intros l Hl.
    destruct (retrieve_hybrid_inv query k w l Hl) as (cands & Ht & Hall).
    exists cands. split; [exact Ht |].
    intros ex Hex. destruct (Hall ex Hex) as (c & s & Hc & ->).
    exists c, s. split; [exact Hc |].
    pose proof (retrieve_top_k_no_score _ _ _ Ht) as Hn.
    rewrite Forall_forall in Hn. split; [apply Hn; exact Hc |].
    repeat split.
  - apply retrieve_top_k_no_score.
  - apply retrieve_mmr_no_score.
Qed.

End RetrieverFacts.

(** ** The index builder *)

Section IndexBuilderFacts.
Context {Emb : Type}.
Variable model_encode : list string -> outcome (list Emb).
Variable collection_add :
  list (Row Emb) -> list string -> list Emb -> list string ->
  list (string * string) -> outcome (list (Row Emb)).

(** C7, as the code has it.  A failed embedding call ends the build before
    the client is touched: the error is passed on and every collection is
    as it was.  Once the embeddings exist the collection of that name is
    deleted and created anew before the insertion, so a build that fails at
    the insertion leaves an empty collection under that name; a build that
    returns leaves the inserted rows there.  No step tests for an empty
    corpus. *)
Theorem build_vector_database_commit (train_data : list IntentPair)
    (name : string) (client : gmap string (list (Row Emb))) :
  let texts := map pair_user_intent train_data in
  let after := build_vector_database model_encode collection_add
                                     train_data name client in
  (forall e,
     create_embeddings model_encode texts = Raise e ->
     after = (client, Raise e)) /\
  (forall embeddings,
     create_embeddings model_encode texts = Ret embeddings ->
     (forall e, after.2 = Raise e -> after.1 = <[name := []]> client) /\
     (forall rows, after.2 = Ret rows -> after.1 = <[name := rows]> client)).
Proof.
  intros texts after. subst texts after. split.
  - intros e He. unfold build_vector_database. rewrite He. reflexivity.
  - intros embeddings He. unfold build_vector_database. rewrite He.
    destruct (collection_add _ _ _ _ _) as [rows | e |]; simpl; split;
      intros x Hx; try discriminate.
    + injection Hx as <-. rewrite insert_insert_eq. apply insert_delete_eq.
    + apply insert_delete_eq.
Qed.

End IndexBuilderFacts.

(** ** The claims at concrete inputs

    The retriever of [Fixture] over its three-entry index, and over the
    22-entry index where the default [fetch_k] of 20 matters. *)

(** Tokens are lower-cased runs of non-blank characters, taken as a set. *)
Example keywords_of_text :
  str_split (str_lower "  Deploy a  5ms Slice ") = ["deploy"; "a"; "5ms"; "slice"]
  /\ keywords "Slice  A slice" = keywords "a SLICE"
  /\ size (keywords "deploy far" ∩ keywords "Deploy a slice") = 1%nat
  /\ size (keywords "   ") = 0%nat.
Proof. repeat split; vm_compute; reflexivity. Qed.

(** The norm of the fixture is the Euclidean norm on the vectors in use. *)
Example vec_norm_exact :
  Fixture.vec_norm [6; 0]%Q == 6 /\ Fixture.vec_norm [3; 4]%Q == 5 /\
  Fixture.vec_norm [0; 5]%Q == 5 /\ Fixture.vec_norm [1; 0]%Q == 1.
Proof. repeat split. Qed.

(** The pool of the query "query" (embedded as (1, 0)) is near, far, slice
    by distance, 20, 25 and 26, while their cosine similarities to the query
    are 3/5, 1 and 0. *)
Example pool_of_query :
  map (fun c => (user_intent c, distance c)) (pool_of Fixture.index "query" 3)
  = [("near", 20%Q); ("far", 25%Q); ("deploy a slice", 26%Q)].
Proof. vm_compute. reflexivity. Qed.

(** With [lambda_mult = 0.5] the loop selects position 1 ("far", score 1
    against 4/5 and 1/2), then position 0: "near" and "deploy a slice" both
    score 1/2 and the lower rank is taken. *)
Example mmr_of_query :
  exists sel,
    mmr_select 2 "query" 2 (1 # 2) (pool_of Fixture.index "query" 3)
    = Ret (sel, [1; 0]%nat).
Proof. eexists. vm_compute. reflexivity. Qed.

Lemma retrieve_mmr_greedy_witness :
  exists sel idx,
    mmr_select 2 "query" 2 (1 # 2) (pool_of Fixture.index "query" 3)
    = Ret (sel, idx) /\
    retrieve_mmr Fixture.index 2 "query" 2 3 (1 # 2) = Ret sel /\
    length sel = Z.to_nat 2 /\
    forall t b, idx !! t = Some b ->
      sel !! t = pool_of Fixture.index "query" 3 !! b /\
      greedy_choice (1 # 2) "query" (pool_of Fixture.index "query" 3)
                    (take t idx) (take t sel) b.
Proof.
  apply (retrieve_mmr_greedy Fixture.index 2 "query" 2 3 (1 # 2)).
  - lia.
  - vm_compute. reflexivity.
  - lia.
Defined.

Lemma retrieve_mmr_terminates_witness :
  ((Z.of_nat (length (pool_of Fixture.index "query" 3)) <= 2)%Z ->
   forall fuel,
     retrieve_mmr Fixture.index fuel "query" 2 3 (1 # 2)
     = Ret (pool_of Fixture.index "query" 3)) /\
  ((2 < Z.of_nat (length (pool_of Fixture.index "query" 3)))%Z ->
   forall fuel,
     ((2 <= Z.of_nat fuel)%Z ->
      exists sel,
        retrieve_mmr Fixture.index fuel "query" 2 3 (1 # 2) = Ret sel /\
        Z.of_nat (length sel) = 2%Z) /\
     ((Z.of_nat fuel < 2)%Z ->
      retrieve_mmr Fixture.index fuel "query" 2 3 (1 # 2) = OutOfFuel)).
Proof.
  apply (retrieve_mmr_terminates Fixture.index "query" 2 3 (1 # 2)).
  - lia.
  - lia.
Defined.

Lemma retrieve_mmr_distinct_witness :
  exists sel idx,
    mmr_select 2 "query" 2 (1 # 2) (pool_of Fixture.index "query" 3)
    = Ret (sel, idx) /\
    retrieve_mmr Fixture.index 2 "query" 2 3 (1 # 2) = Ret sel /\
    NoDup idx /\
    length idx = Z.to_nat 2 /\
    Forall2 (fun i c => pool_of Fixture.index "query" 3 !! i = Some c) idx sel.
Proof.
  apply (retrieve_mmr_distinct Fixture.index 2 "query" 2 3 (1 # 2)).
  - lia.
  - vm_compute. reflexivity.
  - lia.
Defined.

(** C5 fails where distance and cosine similarity disagree: of the two
    fetched candidates "near" (3, 4) is the nearer to the query (1, 0) and
    "far" (6, 0) the more similar. *)
Lemma retrieve_mmr_lambda_one_counterexample :
  (1 < Z.of_nat (length (pool_of Fixture.index "query" 2)))%Z /\
  retrieve_top_k Fixture.index "query" 1
  = Ret [mkExample "near" "{B}" 20 "intent_1" None] /\
  retrieve_mmr Fixture.index 1 "query" 1 2 1
  = Ret [mkExample "far" "{A}" 25 "intent_0" None] /\
  retrieve_mmr Fixture.index 1 "query" 1 2 1
  <> retrieve_top_k Fixture.index "query" 1.
Proof.
  split; [vm_compute; reflexivity |].
  split; [vm_compute; reflexivity |].
  split; [vm_compute; reflexivity |].
  vm_compute. discriminate.
Qed.

(** For the query "deploy a slice" (embedded as (0, 5)) distance and
    similarity agree on the pool. *)
Lemma retrieve_mmr_lambda_one_witness :
  retrieve_mmr Fixture.index 2 "deploy a slice" 2 3 1
  = retrieve_top_k Fixture.index "deploy a slice" 2.
Proof.
  apply (retrieve_mmr_lambda_one Fixture.index 2 "deploy a slice" 2 3 1).
  - lia.
  - lia.
  - vm_compute. reflexivity.
  - lia.
  - reflexivity.
  - intros i j ci cj Hij Hi Hj.
    destruct i as [| [| [| i]]], j as [| [| [| j]]]; try lia;
      vm_compute in Hi, Hj; try discriminate;
      injection Hi as <-; injection Hj as <-; vm_compute; discriminate.
Defined.

(** C2 fails under mmr once [k] exceeds the pool size: over 22 entries and
    for [k = 21], [retrieve_examples] returns the 20 fetched candidates. *)
Lemma exemplar_list_length_counterexample :
  exists l,
    retrieve_examples Fixture.index22 25 "mmr" 21 "query" = Ret l /\
    length l = 20%nat /\
    length l <> Nat.min (Z.to_nat 21) (length Fixture.index22).
Proof.
  eexists. split; [vm_compute; reflexivity |].
  split; [reflexivity | vm_compute; discriminate].
Qed.

Lemma exemplar_list_length_witness :
  (exists l,
     retrieve_top_k Fixture.index "deploy far" 2 = Ret l /\
     length l = Nat.min (Z.to_nat 2) (length Fixture.index)) /\
  (exists l,
     retrieve_mmr Fixture.index 2 "deploy far" 2 3 (1 # 2) = Ret l /\
     length l
     = Nat.min (Z.to_nat 2) (Nat.min (Z.to_nat 3) (length Fixture.index))) /\
  (exists l,
     retrieve_hybrid Fixture.index "deploy far" 2 (3 # 10) = Ret l /\
     length l = Nat.min (Z.to_nat 2) (length Fixture.index)).
Proof.
  destruct (exemplar_list_length Fixture.index 2 "deploy far" 2 3
              (1 # 2) (3 # 10)) as (H1 & H2 & H3).
  - lia.
  - split; [exact H1 |]. split.
    + apply H2; lia.
    + apply H3.
      * vm_compute. discriminate.
      * vm_compute. repeat constructor; discriminate.
Defined.

(** C3 fails at [k = 0] and at [fetch_k < k]: under mmr both calls return
    a list. *)
Lemma retrieve_examples_errors_counterexample :
  retrieve_examples Fixture.index 5 "mmr" 0 "query" = Ret [] /\
  ~ fails (retrieve_examples Fixture.index 5 "mmr" 0 "query") /\
  ~ fails (retrieve_examples Fixture.index22 25 "mmr" 21 "query").
Proof.
  split; [vm_compute; reflexivity |].
  split; intros [e He]; vm_compute in He; discriminate.
Qed.

Lemma retrieve_examples_errors_witness :
  retrieve_examples Fixture.index 5 "nearest" 2 "query"
  = Raise (ValueError "Unknown retrieval strategy: nearest") /\
  (forall msg,
     retrieve_examples Fixture.index 5 "hybrid" 2 "query"
     <> Raise (ValueError msg)) /\
  retrieve_examples Fixture.index 5 "mmr" 0 "query" = Ret [] /\
  retrieve_examples Fixture.index22 5 "mmr" 21 "query"
  = Ret (pool_of Fixture.index22 "query" 20).
Proof.
  split; [| split; [| split]].
  - apply (retrieve_examples_errors Fixture.index 5 "nearest" 2 "query").
    intros H.
    repeat (apply elem_of_cons in H as [H | H]; [discriminate |]).
    inversion H.
  - apply (retrieve_examples_errors Fixture.index 5 "hybrid" 2 "query");
      [| lia].
    do 2 apply list_elem_of_further. apply list_elem_of_here.
  - apply (retrieve_examples_errors Fixture.index 5 "mmr" 0 "query");
      [lia | vm_compute; discriminate].
  - apply (retrieve_examples_errors Fixture.index22 5 "mmr" 21 "query"). lia.
Defined.

Lemma retrieve_hybrid_divides_by_zero_witness :
  retrieve_hybrid Fixture.index "" 1 (3 # 10) = Raise ZeroDivisionError.
Proof.
  apply (retrieve_hybrid_divides_by_zero Fixture.index "" 1 (3 # 10)).
  - lia.
  - vm_compute. discriminate.
  - vm_compute. reflexivity.
Defined.

(** With tokens in the query the hybrid policy re-ranks: "far" and
    "deploy a slice" share a token with the query and overtake the nearer
    "near". *)
Example hybrid_reranks :
  retrieve_hybrid Fixture.index "deploy far" 2 (3 # 10)
  = Ret [ mkExample "far" "{A}" 25 "intent_0" (Some (920 # 5200));
          mkExample "deploy a slice" "{C}" 26 "intent_2" (Some (950 # 5400)) ].
Proof. vm_compute. reflexivity. Qed.

(** C6.  The ranking is not computed for every query: for a query of
    blanks the two candidates of the semantic search are there to be
    scored and ranked, and [retrieve_hybrid] raises [ZeroDivisionError]
    instead of returning the first of them. *)
Theorem retrieve_hybrid_blank_query :
  (exists cands,
     retrieve_top_k Fixture.index "   " (1 * 2) = Ret cands /\
     length cands = 2%nat) /\
  retrieve_hybrid Fixture.index "   " 1 (3 # 10) = Raise ZeroDivisionError.
Proof.
  split; [eexists; split; vm_compute; reflexivity |].
  vm_compute. reflexivity.
Qed.

Lemma hybrid_adds_combined_score_witness :
  exists l,
    retrieve_hybrid Fixture.index "deploy far" 1 (3 # 10) = Ret l /\
    length l = 1%nat /\
    exists cands,
      retrieve_top_k Fixture.index "deploy far" (1 * 2) = Ret cands /\
      forall ex, ex ∈ l ->
        exists c s,
          c ∈ cands /\ combined_score c = None /\
          combined_score ex = Some s /\
          user_intent ex = user_intent c /\
          tmf921_intent ex = tmf921_intent c /\
          distance ex = distance c /\
          id ex = id c.
Proof.
  eexists. split; [vm_compute; reflexivity |]. split; [reflexivity |].
  apply (proj1 (hybrid_adds_combined_score Fixture.index
                  2 "deploy far" 1 3 (1 # 2) (3 # 10))).
  vm_compute. reflexivity.
Defined.

(** C7 fails on the empty corpus: the insertion is refused after the old
    collection has been replaced by an empty one. *)
Lemma build_vector_database_commit_counterexample :
  fails (build_vector_database Fixture.embed_all Fixture.chroma_add []
           "tmf921_intents" Fixture.client).2 /\
  (build_vector_database Fixture.embed_all Fixture.chroma_add []
     "tmf921_intents" Fixture.client).1 !! "tmf921_intents" = Some [] /\
  (build_vector_database Fixture.embed_all Fixture.chroma_add []
     "tmf921_intents" Fixture.client).1 <> Fixture.client.
Proof.
  split; [eexists; vm_compute; reflexivity |].
  split; [vm_compute; reflexivity |].
  intros H.
  apply (f_equal (fun m => m !! "tmf921_intents")) in H.
  vm_compute in H. discriminate.
Qed.

Lemma build_vector_database_commit_witness :
  (build_vector_database Fixture.embed_all Fixture.chroma_add []
     "tmf921_intents" Fixture.client).1
  = <[ "tmf921_intents" := [] ]> Fixture.client.
Proof.
  apply (proj1 (proj2 (build_vector_database_commit Fixture.embed_all
                         Fixture.chroma_add [] "tmf921_intents"
                         Fixture.client)
                 [] eq_refl) (LibraryError "chromadb: add")).
  reflexivity.
Defined.

(** * Further properties of the code

    ** The three policies *)

Lemma Qinv_le_contravar (a b : Q) : (0 < a -> a <= b -> / b <= / a)%Q.
Proof.
  intros Ha Hab. destruct (Qlt_le_dec a b) as [Hlt | Hge].
  - assert (0 < b)%Q as Hb by lra.
    apply Qlt_le_weak, (proj1 (Qinv_lt_contravar a b Ha Hb)), Hlt.
  - assert (a == b) as -> by lra. lra.
Qed.

Lemma StronglySorted_take {A} (R : A -> A -> Prop) (n : nat) (l : list A) :
  StronglySorted R l -> StronglySorted R (take n l).
Proof.
  intros Hs. revert n. induction Hs as [| x l _ IH Hx]; intros [| n]; simpl;
    try constructor; [apply IH |].
  apply Forall_forall. intros y Hy.
  rewrite Forall_forall in Hx. apply Hx. eapply subseteq_take, Hy.
Qed.

Lemma StronglySorted_map {A B} (R : A -> A -> Prop) (S : B -> B -> Prop)
    (f : A -> B) (l : list A) :
  (forall a b, R a b -> S (f a) (f b)) ->
  StronglySorted R l -> StronglySorted S (map f l).
Proof.
  intros HRS. induction 1 as [| x l _ IH Hx]; simpl; constructor; [exact IH |].
  apply List.Forall_map. eapply Forall_impl; [exact Hx |]. intros y. apply HRS.
Qed.

(** A list that is already in order is left as it is. *)
Lemma sort_by_sorted_id {A} (before : A -> A -> bool) (l : list A) :
  StronglySorted (fun a b => before b a = false) l -> sort_by before l = l.
Proof.
  induction 1 as [| x l _ IH Hx]; [reflexivity |].
  simpl. rewrite IH. destruct Hx as [| y l Hy _]; [reflexivity |].
  simpl. rewrite Hy. reflexivity.
Qed.

Section PolicyExtras.
Context {Emb : Type} `{!Backend Emb}.
Variable rows : list (Row Emb).

(** The answer of the index is in ascending distance. *)
Lemma pool_of_sorted (query : string) (n : Z) :
  StronglySorted (fun a b => (distance a <= distance b)%Q)
                 (pool_of rows query n).
Proof.
  unfold pool_of.
  apply (StronglySorted_map (fun a b => nearer b a = false)).
  { intros a b H. apply float_gt_le in H. exact H. }
  apply StronglySorted_take, sort_by_sorted.
  - intros a b H. apply float_gt_lt in H. apply float_gt_le. lra.
  - intros a b c H1 H2. apply float_gt_le in H1, H2. apply float_gt_le. lra.
Qed.

(** [retrieve_hybrid] on a query with a token. *)
Lemma retrieve_hybrid_value (query : string) (k : Z) (w : Q) :
  (1 <= k)%Z ->
  size (keywords query) <> 0%nat ->
  Forall (fun c => ~ 1 + distance c == 0) (pool_of rows query (k * 2)) ->
  retrieve_hybrid rows query k w
  = Ret (take (Z.to_nat k)
           (sort_by (fun a b => float_gt (score_of a) (score_of b))
                    (scored_pool rows query k w))).
Proof.
  intros Hk Hq Hd. unfold retrieve_hybrid.
  rewrite retrieve_top_k_pos by lia. simpl.
  rewrite (mapM_Ret _ (fun c => set_combined_score
                                  (spec_combined_score query w c) c)).
  - simpl. rewrite sort_combined_desc_scored.
    + simpl. unfold slice_to.
      destruct (Z.ltb_spec k 0) as [H | _]; [lia | reflexivity].
    + apply List.Forall_map, Forall_true. intros c. eexists. reflexivity.
  - eapply Forall_impl; [exact Hd |].
    intros c Hc. apply hybrid_score_ok; assumption.
Qed.

Lemma spec_keyword_score_bounds (query : string) (c : Example) :
  (0 <= spec_keyword_score query c <= 1)%Q.
Proof.
  unfold spec_keyword_score.
  destruct (Nat.eqb_spec (size (keywords query)) 0) as [E | E]; [lra |].
  assert (size (keywords query ∩ keywords (user_intent c))
          <= size (keywords query))%nat as Hle.
  { apply subseteq_size, intersection_subseteq_l. }
  unfold Qle. simpl.
  rewrite <- (positive_nat_Z (Pos.of_nat _)), Nat2Pos.id by exact E.
  lia.
Qed.

Lemma spec_combined_score_bounds (query : string) (w : Q) (c : Example) :
  (0 <= w <= 1)%Q -> (0 <= distance c)%Q ->
  (0 <= spec_combined_score query w c <= 1)%Q.
Proof.
  intros Hw Hd. unfold spec_combined_score.
  pose proof (spec_keyword_score_bounds query c) as Hk.
  assert (0 <= 1 / (1 + distance c) <= 1)%Q as Hs.
  { split.
    - apply Qle_shift_div_l; lra.
    - apply Qle_shift_div_r; lra. }
  nra.
Qed.

(** X1.  With [keyword_weight = 0] the hybrid policy does not re-rank: for
    a query with a token and non-negative distances it returns the
    exemplars of [retrieve_top_k] for the same [k], in the same order, each
    with its score attached. *)
Theorem retrieve_hybrid_weight_zero (query : string) (k : Z) (w : Q) :
  (1 <= k)%Z ->
  size (keywords query) <> 0%nat ->
  Forall (fun c => (0 <= distance c)%Q) (pool_of rows query (k * 2)) ->
  w == 0 ->
  exists l,
    retrieve_top_k rows query k = Ret l /\
    retrieve_hybrid rows query k w
    = Ret (map (fun c => set_combined_score (spec_combined_score query w c) c)
               l).
Proof.
  intros Hk Hq Hd Hw. exists (pool_of rows query k).
  split; [apply retrieve_top_k_pos; exact Hk |].
  rewrite retrieve_hybrid_value; try assumption.
  2:{ eapply Forall_impl; [exact Hd |]. intros c Hc. simpl in Hc. lra. }
  f_equal. rewrite sort_by_sorted_id.
  - unfold scored_pool. rewrite firstn_map.
    rewrite take_pool_of by lia. reflexivity.
  - unfold scored_pool.
    pose proof (pool_of_sorted query (k * 2)) as Hs.
    induction Hs as [| a l _ IH Ha]; simpl; constructor.
    + apply IH. inversion Hd; assumption.
    + apply List.Forall_map.
      inversion Hd as [| ? ? Hda Hdl]; subst.
      rewrite Forall_forall in Ha, Hdl. apply Forall_forall. intros b Hb.
      specialize (Ha b Hb). specialize (Hdl b Hb). simpl in *.
      apply float_gt_le. unfold score_of. simpl.
      unfold spec_combined_score. rewrite !Hw.
      assert (/ (1 + distance b) <= / (1 + distance a))%Q as Hinv
        by (apply Qinv_le_contravar; lra).
      unfold Qdiv. lra.
Qed.

(** X2.  For a weight between 0 and 1, a query with a token and
    non-negative distances, every exemplar the hybrid policy returns has a
    combined score between 0 and 1. *)
Theorem retrieve_hybrid_score_bounds (query : string) (k : Z) (w : Q) :
  (1 <= k)%Z ->
  size (keywords query) <> 0%nat ->
  Forall (fun c => (0 <= distance c)%Q) (pool_of rows query (k * 2)) ->
  (0 <= w <= 1)%Q ->
  exists l,
    retrieve_hybrid rows query k w = Ret l /\
    Forall (fun ex => exists s, combined_score ex = Some s /\ (0 <= s <= 1)%Q)
           l.
Proof.
  intros Hk Hq Hd Hw. eexists. split.
  { apply retrieve_hybrid_value; try assumption.
    eapply Forall_impl; [exact Hd |]. intros c Hc. simpl in Hc. lra. }
  apply Forall_forall. intros ex Hex.
  apply subseteq_take in Hex. rewrite sort_by_Permutation in Hex.
  unfold scored_pool in Hex. apply list_elem_of_fmap in Hex as (c & -> & Hc).
  rewrite Forall_forall in Hd.
  eexists. split; [reflexivity |].
  apply spec_combined_score_bounds; [exact Hw | apply Hd, Hc].
Qed.

(** X3.  The first exemplar of [retrieve_mmr] on a pool larger than [k]:
    for a positive [lambda_mult] no candidate of the pool is more similar
    to the query; for [lambda_mult = 0] it is the nearest candidate, the
    scores of the first pass being all equal. *)
Theorem retrieve_mmr_first_pick (fuel : nat) (query : string) (k fetch_k : Z)
    (lambda_mult : Q) :
  (1 <= fetch_k)%Z -> (1 <= k)%Z ->
  (k < Z.of_nat (length (pool_of rows query fetch_k)))%Z ->
  (k <= Z.of_nat fuel)%Z ->
  exists sel first,
    retrieve_mmr rows fuel query k fetch_k lambda_mult = Ret sel /\
    sel !! 0%nat = Some first /\
    ((0 < lambda_mult)%Q ->
     forall c, c ∈ pool_of rows query fetch_k ->
       (similarity query (user_intent c)
        <= similarity query (user_intent first))%Q) /\
    (lambda_mult == 0 -> pool_of rows query fetch_k !! 0%nat = Some first).
Proof.
  intros Hf Hk Hbig Hfuel.
  destruct (mmr_run rows fuel query k fetch_k lambda_mult Hf Hbig Hfuel)
    as (sel & idx & _ & Hm & Hp & _ & Hlen & Hstep).
  destruct (lookup_lt_is_Some_2 idx 0) as [b Hb]; [lia |].
  destruct (Hstep 0%nat b Hb) as (cb & Hcb & _ & Hbest). simpl in Hbest.
  destruct (Forall2_lookup_l _ _ _ _ _ Hp Hb) as (c & Hc & Hbc).
  assert (c = cb) as -> by congruence.
  exists sel, cb. split; [exact Hm |]. split; [exact Hc |]. split.
  - intros Hlam c Hin. apply list_elem_of_lookup in Hin as [j Hj].
    destruct (Hbest j c Hj) as [Hle _]; [apply not_elem_of_nil |].
    unfold spec_mmr_score in Hle. simpl in Hle. nra.
  - intros Hlam. destruct b as [| b]; [exact Hcb |]. exfalso.
    destruct (lookup_lt_is_Some_2 (pool_of rows query fetch_k) 0)
      as [c0 Hc0]; [lia |].
    destruct (Hbest 0%nat c0 Hc0) as [_ Hlt]; [apply not_elem_of_nil |].
    specialize (Hlt ltac:(lia)).
    unfold spec_mmr_score in Hlt. simpl in Hlt. rewrite !Hlam in Hlt. lra.
Qed.

End PolicyExtras.

Lemma picks_from_functional (pool : list Example) (idx : list nat) :
  forall sel sel',
  picks_from pool idx sel -> picks_from pool idx sel' -> sel = sel'.
Proof.
  unfold picks_from. induction idx as [| j idx IH]; intros sel sel' H H';
    inversion H; inversion H'; subst; [reflexivity |].
  f_equal; [congruence | apply IH; assumption].
Qed.

Section PrefixExtras.
Context {Emb : Type} `{!Backend Emb}.
Variable rows : list (Row Emb).

(** A greedy step has one outcome. *)
Lemma greedy_choice_unique (lambda_mult : Q) (query : string)
    (pool : list Example) (taken : list nat) (chosen : list Example)
    (b b' : nat) :
  greedy_choice lambda_mult query pool taken chosen b ->
  greedy_choice lambda_mult query pool taken chosen b' ->
  b = b'.
Proof.
  intros (cb & Hcb & Hnb & Hbest) (cb' & Hcb' & Hnb' & Hbest').
  destruct (Hbest b' cb' Hcb' Hnb') as [Hle Hlt].
  destruct (Hbest' b cb Hcb Hnb) as [Hle' Hlt'].
  destruct (Nat.lt_trichotomy b b') as [H | [H | H]]; [| exact H |].
  - specialize (Hlt' H). lra.
  - specialize (Hlt H). lra.
Qed.

(** The run for [k] is the beginning of the run for any larger [k']. *)
Lemma retrieve_mmr_take (fuel : nat) (query : string) (k k' fetch_k : Z)
    (lambda_mult : Q) :
  (1 <= fetch_k)%Z -> (k <= k')%Z ->
  (k' < Z.of_nat (length (pool_of rows query fetch_k)))%Z ->
  (k' <= Z.of_nat fuel)%Z ->
  exists sel sel',
    retrieve_mmr rows fuel query k fetch_k lambda_mult = Ret sel /\
    retrieve_mmr rows fuel query k' fetch_k lambda_mult = Ret sel' /\
    sel = take (Z.to_nat k) sel'.
Proof.
  intros Hf Hkk Hbig Hfuel.
  destruct (mmr_run rows fuel query k fetch_k lambda_mult)
    as (sel & idx & _ & Hm & Hp & _ & Hlen & Hstep); try lia.
  destruct (mmr_run rows fuel query k' fetch_k lambda_mult)
    as (sel' & idx' & _ & Hm' & Hp' & _ & Hlen' & Hstep'); try lia.
  exists sel, sel'. split; [exact Hm |]. split; [exact Hm' |].
  set (pool := pool_of rows query fetch_k) in *.
  assert (forall t, t <= length idx ->
            take t idx = take t idx' /\ take t sel = take t sel') as Hpre.
  { induction t as [| t IH]; intros Ht; [split; reflexivity |].
    destruct IH as [Hi Hs]; [lia |].
    destruct (lookup_lt_is_Some_2 idx t) as [b Hb]; [lia |].
    destruct (lookup_lt_is_Some_2 idx' t) as [b' Hb']; [lia |].
    pose proof (Hstep t b Hb) as Hg. pose proof (Hstep' t b' Hb') as Hg'.
    rewrite Hi, Hs in Hg.
    pose proof (greedy_choice_unique _ _ _ _ _ _ _ Hg Hg') as ->.
    assert (take (S t) idx = take (S t) idx') as Hi'.
    { rewrite (take_S_r idx t b') by exact Hb.
      rewrite (take_S_r idx' t b') by exact Hb'. rewrite Hi. reflexivity. }
    split; [exact Hi' |].
    apply (picks_from_functional pool (take (S t) idx)).
    - apply Forall2_take, Hp.
    - rewrite Hi'. apply Forall2_take, Hp'. }
  destruct (Hpre (length idx)) as [_ Hs]; [lia |].
  pose proof (Forall2_length _ _ _ Hp) as Hl.
  rewrite take_ge in Hs by lia. rewrite Hs. f_equal. lia.
Qed.

(** X4.  The selection of [retrieve_mmr] grows by extension: on a pool
    larger than [k'], the exemplars selected for [k <= k'] are the first
    [k] of those selected for [k'], for every [lambda_mult]. *)
Theorem retrieve_mmr_prefix (fuel : nat) (query : string) (k k' fetch_k : Z)
    (lambda_mult : Q) :
  (1 <= fetch_k)%Z -> (k <= k')%Z ->
  (k' < Z.of_nat (length (pool_of rows query fetch_k)))%Z ->
  (k' <= Z.of_nat fuel)%Z ->
  exists sel sel',
    retrieve_mmr rows fuel query k fetch_k lambda_mult = Ret sel /\
    retrieve_mmr rows fuel query k' fetch_k lambda_mult = Ret sel' /\
    sel = take (Z.to_nat k) sel'.
Proof. apply retrieve_mmr_take. Qed.


End PrefixExtras.

(** ** The index builder *)

Lemma batch_rows_pairs {Emb} (train_data : list IntentPair) :
  forall (ids : list string) (embs : list Emb),
  length ids = length train_data -> length embs = length train_data ->
  map (fun r => mkPair (row_document r) (row_tmf921_intent r))
      (batch_rows ids embs (map pair_user_intent train_data)
         (map (fun item => (pair_tmf921_intent item, pair_user_intent item))
              train_data))
  = train_data.
Proof.
  unfold batch_rows.
  induction train_data as [| [u t] td IH]; intros [| i ids] [| e embs] Hi He;
    simpl in *; try discriminate; [reflexivity |].
  f_equal. apply IH; congruence.
Qed.

Lemma batch_rows_ids {Emb} (ids : list string) :
  forall (embs : list Emb) (docs : list string) (metas : list (string * string)),
  length embs = length ids -> length docs = length ids ->
  length metas = length ids ->
  map row_id (batch_rows ids embs docs metas) = ids.
Proof.
  unfold batch_rows.
  induction ids as [| i ids IH]; intros [| e embs] [| d docs] [| m metas] He Hd Hm;
    simpl in *; try discriminate; [reflexivity |].
  f_equal. apply IH; congruence.
Qed.

Lemma intent_ids_NoDup (n : nat) :
  NoDup (map (fun i : nat => "intent_" +:+ pretty i) (seq 0 n)).
Proof.
  assert (Inj (=) (=) (fun i : nat => "intent_" +:+ pretty i)) as Hinj.
  { intros i j Hij. apply (inj (String.app "intent_")) in Hij.
    apply (inj pretty) in Hij. exact Hij. }
  apply (NoDup_fmap_2 _), NoDup_seq.
Qed.

Section BuilderExtras.
Context {Emb : Type} `{!Backend Emb}.
Variable model_encode : list string -> outcome (list Emb).
Variable collection_add :
  list (Row Emb) -> list string -> list Emb -> list string ->
  list (string * string) -> outcome (list (Row Emb)).


(** X6.  Round trip through the index.  With an embedder that returns one
    embedding per text and a [collection.add] that stores the batch row by
    row, the build of a non-empty corpus returns, and a nearest-neighbour
    query of the built collection for at least as many exemplars as the
    corpus has items returns every training pair exactly once: the
    exemplars are a permutation of the corpus, and their ids are
    distinct. *)
Theorem build_then_retrieve_all (train_data : list IntentPair)
    (collection_name query : string) (k : Z)
    (client : gmap string (list (Row Emb))) (embs : list Emb) :
  train_data <> [] ->
  model_encode (map pair_user_intent train_data) = Ret embs ->
  length embs = length train_data ->
  (forall ids docs metas,
     length ids = length embs -> length docs = length embs ->
     length metas = length embs ->
     collection_add [] ids embs docs metas
     = Ret (batch_rows ids embs docs metas)) ->
  (Z.of_nat (length train_data) <= k)%Z ->
  exists rows exs,
    build_vector_database model_encode collection_add train_data
                          collection_name client
    = (<[collection_name := rows]> client, Ret rows) /\
    retrieve_top_k rows query k = Ret exs /\
    map pair_of_example exs ≡ₚ train_data /\
    NoDup (map id exs).
Proof.
  intros Hne Henc Hlen Hadd Hk.
  set (ids := map (fun i : nat => "intent_" +:+ pretty i)
                  (seq 0 (length train_data))).
  set (docs := map pair_user_intent train_data).
  set (metas := map (fun item => (pair_tmf921_intent item,
                                  pair_user_intent item)) train_data).
  assert (length ids = length train_data) as Hids.
  { unfold ids. rewrite length_map, length_seq. reflexivity. }
  exists (batch_rows ids embs docs metas).
  assert (0 < length train_data)%nat as Hpos.
  { destruct train_data; [contradiction | simpl; lia]. }
  rewrite retrieve_top_k_pos by lia.
  eexists. split.
  { unfold build_vector_database, create_embeddings. rewrite Henc.
    fold ids docs metas.
    rewrite Hadd by (unfold docs, metas; rewrite ?length_map; lia). simpl.
    rewrite insert_insert_eq, insert_delete_eq. reflexivity. }
  split; [reflexivity |].
  unfold pool_of. rewrite take_ge.
  2:{ rewrite length_sort_by, length_map. unfold batch_rows.
      rewrite length_zip_with, !length_zip. unfold docs, metas.
      rewrite !length_map. lia. }
  set (hits := map _ (batch_rows _ _ _ _)).
  pose proof (sort_by_Permutation nearer hits) as Hperm.
  split.
  - rewrite <- (batch_rows_pairs train_data ids embs Hids Hlen).
    fold docs metas. rewrite Hperm. unfold hits.
    rewrite !map_map. reflexivity.
  - assert (map id (map example_of_hit hits)
            = map row_id (batch_rows ids embs docs metas)) as Hid.
    { unfold hits. rewrite !map_map. reflexivity. }
    rewrite Hperm, Hid, batch_rows_ids; unfold docs, metas;
      rewrite ?length_map; try lia.
    apply intent_ids_NoDup.
Qed.

End BuilderExtras.

(** ** The categorizer *)

(** The loop over the categories keeps the first category with the largest
    number of matching keywords, provided that number exceeds the initial
    [max_matches]. *)
Lemma scan_categories_spec (text : string) :
  forall (items : list (string * CategoryInfo)) (c0 : string) (m0 : nat),
  let r := scan_categories text items c0 m0 in
  m0 <= r.2 /\
  Forall (fun it => count_matches (cat_keywords it.2) text <= r.2) items /\
  (r = (c0, m0) \/
   exists i info,
     items !! i = Some (r.1, info) /\
     count_matches (cat_keywords info) text = r.2 /\
     m0 < r.2 /\
     forall j it, j < i -> items !! j = Some it ->
       count_matches (cat_keywords it.2) text < r.2).
Proof.
  induction items as [| [name info] rest IH]; intros c0 m0; simpl.
  - split; [lia |]. split; [constructor |]. left. reflexivity.
  - destruct (Nat.ltb_spec m0 (count_matches (cat_keywords info) text))
      as [Hlt | Hge].
    + destruct (IH name (count_matches (cat_keywords info) text))
        as (Hle & Hall & Hcase).
      split; [lia |]. split; [constructor; [exact Hle | exact Hall] |].
      right. destruct Hcase as [Heq | (i & info' & Hi & Hc & Hm & Hbefore)].
      * exists 0, info. rewrite Heq. simpl.
        split; [reflexivity |]. split; [reflexivity |]. split; [exact Hlt |].
        intros j it Hj. lia.
      * exists (S i), info'. simpl. split; [exact Hi |].
        split; [exact Hc |]. split; [lia |].
        intros [| j] it Hj Hit; simpl in Hit.
        -- injection Hit as <-. simpl. lia.
        -- apply (Hbefore j); [lia | exact Hit].
    + destruct (IH c0 m0) as (Hle & Hall & Hcase).
      split; [exact Hle |].
      split; [constructor; [simpl; lia | exact Hall] |].
      destruct Hcase as [Heq | (i & info' & Hi & Hc & Hm & Hbefore)];
        [left; exact Heq | right].
      exists (S i), info'. simpl. split; [exact Hi |].
      split; [exact Hc |]. split; [exact Hm |].
      intros [| j] it Hj Hit; simpl in Hit.
      * injection Hit as <-. simpl. lia.
      * apply (Hbefore j); [lia | exact Hit].
Qed.

Lemma items_lookup_Some {A} (items : list (string * A)) (key : string) :
  key ∈ map fst items -> exists v, items_lookup items key = Ret v /\
                                   (key, v) ∈ items.
Proof.
  induction items as [| [k v] rest IH]; simpl; intros Hin.
  - apply elem_of_nil in Hin. contradiction.
  - destruct (String.eqb_spec k key) as [-> | Hne].
    + exists v. split; [reflexivity | apply list_elem_of_here].
    + apply elem_of_cons in Hin. destruct Hin as [-> | Hin]; [congruence |].
      destruct (IH Hin) as (v' & Hv & Hmem). exists v'.
      split; [exact Hv | apply list_elem_of_further, Hmem].
Qed.

(** The category the loop ends with is the default or a key of the
    table. *)
Lemma scan_categories_name (text : string) :
  forall (items : list (string * CategoryInfo)) (c0 : string) (m0 : nat),
  (scan_categories text items c0 m0).1 = c0 \/
  (scan_categories text items c0 m0).1 ∈ map fst items.
Proof.
  intros items c0 m0.
  destruct (scan_categories_spec text items c0 m0)
    as (_ & _ & [Heq | (i & info & Hi & _)]).
  - left. rewrite Heq. reflexivity.
  - right. change (map fst items) with (fst <$> items).
    apply list_elem_of_fmap. exists ((scan_categories text items c0 m0).1, info).
    split; [reflexivity |]. eapply list_elem_of_lookup_2, Hi.
Qed.

Lemma items_get_range (items : list (string * Z)) (key : string)
    (dflt lo hi : Z) :
  (lo <= dflt <= hi)%Z -> Forall (fun it => (lo <= it.2 <= hi)%Z) items ->
  (lo <= items_get items key dflt <= hi)%Z.
Proof.
  intros Hd. induction 1 as [| [k v] rest Hv _ IH]; simpl; [exact Hd |].
  destruct (String.eqb k key); [exact Hv | exact IH].
Qed.

Section CategorizerExtras.
Context {PyFloat : Type} `{!Builtins PyFloat}.

Lemma categorize_category (user_intent : string) :
  exists info,
    items_lookup CATEGORIES
      (scan_categories (str_lower user_intent) CATEGORIES
                       "mobile_broadband" 0).1 = Ret info /\
    ((scan_categories (str_lower user_intent) CATEGORIES
                      "mobile_broadband" 0).1, info) ∈ CATEGORIES.
Proof.
  apply items_lookup_Some.
  destruct (scan_categories_name (str_lower user_intent) CATEGORIES
              "mobile_broadband" 0) as [-> | Hin]; [| exact Hin].
  vm_compute. repeat first [apply list_elem_of_here | apply list_elem_of_further].
Qed.

(** [categorize] after the choice of the category: the lookup of the
    category in the table succeeds. *)
Lemma categorize_eq (user_intent : string) :
  exists info,
    ((scan_categories (str_lower user_intent) CATEGORIES
                      "mobile_broadband" 0).1, info) ∈ CATEGORIES /\
    categorize user_intent
    = (lat ← _extract_latency user_intent;
       thr ← _extract_throughput user_intent;
       mret (analysis_of
               (scan_categories (str_lower user_intent) CATEGORIES
                                "mobile_broadband" 0).1
               info
               (default (((cat_latency_range info).1
                          + (cat_latency_range info).2) `div` 2)%Z lat)
               (default (((cat_throughput_range info).1
                          + (cat_throughput_range info).2) `div` 2)%Z thr)
               user_intent)).
Proof.
  destruct (categorize_category user_intent) as (info & Hlook & Hmem).
  exists info. split; [exact Hmem |].
  unfold categorize. rewrite Hlook.
  unfold mbind, outcome_bind.
  destruct (_extract_latency user_intent) as [[lat |] | |]; try reflexivity;
    destruct (_extract_throughput user_intent) as [[thr |] | |];
    reflexivity.
Qed.

Lemma categorize_inv (user_intent : string) (d : gmap string pyval) :
  categorize user_intent = Ret d ->
  exists info lat thr,
    ((scan_categories (str_lower user_intent) CATEGORIES
                      "mobile_broadband" 0).1, info) ∈ CATEGORIES /\
    _extract_latency user_intent = Ret lat /\
    _extract_throughput user_intent = Ret thr /\
    d = analysis_of
          (scan_categories (str_lower user_intent) CATEGORIES
                           "mobile_broadband" 0).1
          info
          (default (((cat_latency_range info).1
                     + (cat_latency_range info).2) `div` 2)%Z lat)
          (default (((cat_throughput_range info).1
                     + (cat_throughput_range info).2) `div` 2)%Z thr)
          user_intent.
Proof.
  destruct (categorize_eq user_intent) as (info & Hmem & ->).
  unfold mbind, outcome_bind, mret, outcome_ret.
  destruct (_extract_latency user_intent) as [lat | |]; try discriminate.
  destruct (_extract_throughput user_intent) as [thr | |]; try discriminate.
  intros Hd. exists info, lat, thr.
  split; [exact Hmem |]. split; [reflexivity |]. split; [reflexivity |].
  congruence.
Qed.

Lemma analysis_of_lookup (c : string) (info : CategoryInfo) (lat thr : Z)
    (user_intent : string) :
  let d := analysis_of c info lat thr user_intent in
  d !! "category" = Some (PStr c) /\
  d !! "layer" = Some (PStr (cat_layer info)) /\
  d !! "latency_ms" = Some (PInt lat) /\
  d !! "throughput_mbps" = Some (PInt thr) /\
  d !! "service_type" = Some (PStr (_determine_service_type user_intent)) /\
  d !! "priority" = Some (PInt (_determine_priority c)) /\
  d !! "latency" = None /\
  d !! "throughput" = None.
Proof.
  unfold analysis_of. cbv zeta.
  repeat split;
    repeat first [ rewrite lookup_insert_eq; reflexivity
                 | rewrite lookup_insert_ne by discriminate
                 | apply lookup_empty ].
Qed.

Lemma analysis_of_dom (c : string) (info : CategoryInfo) (lat thr : Z)
    (user_intent : string) :
  dom (analysis_of c info lat thr user_intent)
  = ({[ "category"; "layer"; "latency_ms"; "throughput_mbps";
        "service_type"; "intent_name"; "priority"; "reliability" ]}
     : gset string).
Proof.
  unfold analysis_of. rewrite !dom_insert_L, dom_empty_L.
  rewrite (right_id_L ∅ (∪)). rewrite !(assoc_L (∪)). reflexivity.
Qed.

Lemma CATEGORIES_layers :
  Forall (fun it => cat_layer it.2 = "resource" \/ cat_layer it.2 = "service")
         CATEGORIES.
Proof. repeat (apply Forall_cons_2; [simpl; auto |]). constructor. Qed.


Lemma determine_priority_range (category : string) :
  (1 <= _determine_priority category <= 4)%Z.
Proof.
  apply items_get_range; [lia |].
  repeat (apply Forall_cons_2; [simpl; lia |]). constructor.
Qed.

(** X7.  [categorize] never fails on its own: whenever the two extractions
    of explicit values return, it returns a dict with exactly the eight
    keys category, layer, latency_ms, throughput_mbps, service_type,
    intent_name, priority and reliability (the lookup of the chosen
    category in [CATEGORIES] cannot raise [KeyError]); an extracted value
    is stored as it is, the priority is between 1 and 4, and the layer is
    resource or service. *)
Theorem categorize_returns (user_intent : string) (lat thr : option Z) :
  _extract_latency user_intent = Ret lat ->
  _extract_throughput user_intent = Ret thr ->
  exists d,
    categorize user_intent = Ret d /\
    dom d = ({[ "category"; "layer"; "latency_ms"; "throughput_mbps";
                "service_type"; "intent_name"; "priority"; "reliability" ]}
             : gset string) /\
    (forall n, lat = Some n -> d !! "latency_ms" = Some (PInt n)) /\
    (forall n, thr = Some n -> d !! "throughput_mbps" = Some (PInt n)) /\
    (exists p, d !! "priority" = Some (PInt p) /\ (1 <= p <= 4)%Z) /\
    (d !! "layer" = Some (PStr "resource") \/
     d !! "layer" = Some (PStr "service")).
Proof.
  intros Hlat Hthr.
  destruct (categorize_eq user_intent) as (info & Hmem & Heq).
  rewrite Heq, Hlat, Hthr. unfold mbind, outcome_bind, mret, outcome_ret.
  eexists. split; [reflexivity |].
  split; [apply analysis_of_dom |].
  match goal with
  | |- context [analysis_of ?c ?i ?l ?t ?u] =>
      destruct (analysis_of_lookup c i l t u)
        as (_ & Hlayer & Hl & Ht & _ & Hp & _)
  end.
  split; [intros n ->; exact Hl |].
  split; [intros n ->; exact Ht |].
  split.
  { eexists. split; [exact Hp | apply determine_priority_range]. }
  rewrite Hlayer.
  pose proof CATEGORIES_layers as Hall. rewrite Forall_forall in Hall.
  destruct (Hall _ Hmem) as [Hr | Hr]; simpl in Hr; rewrite Hr; auto.
Qed.

(** X8.  The category [categorize] reports is the first entry of
    [CATEGORIES], in the order of the table, among those with the largest
    number of keywords occurring in the lower-cased text, and it is
    mobile_broadband when no keyword of any category occurs. *)
Theorem categorize_first_best (user_intent : string)
    (d : gmap string pyval) :
  categorize user_intent = Ret d ->
  exists c m,
    d !! "category" = Some (PStr c) /\
    Forall (fun it =>
              count_matches (cat_keywords it.2) (str_lower user_intent) <= m)
           CATEGORIES /\
    (m = 0 -> c = "mobile_broadband") /\
    (0 < m ->
     exists i info,
       CATEGORIES !! i = Some (c, info) /\
       count_matches (cat_keywords info) (str_lower user_intent) = m /\
       forall j it, j < i -> CATEGORIES !! j = Some it ->
         count_matches (cat_keywords it.2) (str_lower user_intent) < m).
Proof.
  intros Hd.
  destruct (categorize_inv user_intent d Hd) as (info & lat & thr & _ & _ & _
                                                 & ->).
  match goal with
  | |- context [analysis_of ?c ?i ?l ?t ?u] =>
      destruct (analysis_of_lookup c i l t u) as (Hc & _)
  end.
  destruct (scan_categories_spec (str_lower user_intent) CATEGORIES
              "mobile_broadband" 0) as (_ & Hall & Hcase).
  set (r := scan_categories (str_lower user_intent) CATEGORIES
                            "mobile_broadband" 0) in *.
  exists r.1, r.2. split; [exact Hc |]. split; [exact Hall |].
  destruct Hcase as [Hr | (i & info' & Hi & Hm & Hlt & Hbefore)].
  - rewrite Hr. simpl. split; [reflexivity | lia].
  - split; [lia |]. intros _. exists i, info'. auto.
Qed.


(** The first entry of the table with a keyword in the text wins. *)
Lemma first_service_type_spec (text : string) :
  forall items : list (string * list string),
  (first_service_type text items = "NetworkSlice" /\
   Forall (fun it => forall kw, kw ∈ it.2 -> str_contains kw text = false)
          items) \/
  exists i name kws kw,
    items !! i = Some (name, kws) /\
    first_service_type text items = name /\
    kw ∈ kws /\ str_contains kw text = true /\
    forall j it kw', j < i -> items !! j = Some it -> kw' ∈ it.2 ->
      str_contains kw' text = false.
Proof.
  induction items as [| [name kws] rest IH]; simpl.
  - left. split; [reflexivity | constructor].
  - destruct (existsb (fun kw => str_contains kw text) kws) eqn:He.
    + right. apply existsb_exists in He. destruct He as (kw & Hin & Hkw).
      exists 0, name, kws, kw. simpl. split; [reflexivity |].
      split; [reflexivity |]. split; [apply list_elem_of_In, Hin |].
      split; [exact Hkw |]. intros j it kw' Hj. lia.
    + assert (forall kw, kw ∈ kws -> str_contains kw text = false) as Hno.
      { intros kw Hin. destruct (str_contains kw text) eqn:Hkw;
          [| reflexivity].
        assert (existsb (fun kw => str_contains kw text) kws = true) as Ht.
        { apply existsb_exists. exists kw.
          split; [apply list_elem_of_In, Hin | exact Hkw]. }
        congruence. }
      destruct IH as [[Hr Hall] | (i & name' & kws' & kw & Hi & Hr & Hin & Hkw
                                   & Hbefore)].
      * left. split; [exact Hr |]. constructor; [exact Hno | exact Hall].
      * right. exists (S i), name', kws', kw. simpl.
        split; [exact Hi |]. split; [exact Hr |]. split; [exact Hin |].
        split; [exact Hkw |].
        intros [| j] it kw' Hj Hit Hin'; simpl in Hit.
        -- injection Hit as <-. apply Hno, Hin'.
        -- apply (Hbefore j it); [lia | exact Hit | exact Hin'].
Qed.

End CategorizerExtras.

(** X10.  [_determine_service_type] answers with the first service type of
    its table, in the order of the table, that has a keyword occurring in
    the lower-cased text, and with NetworkSlice when no keyword of the table
    occurs: NetworkSlice is both the entry of highest precedence and the
    default. *)
Theorem determine_service_type_first_match (text : string) :
  (_determine_service_type text = "NetworkSlice" /\
   Forall (fun it => forall kw, kw ∈ it.2 ->
                       str_contains kw (str_lower text) = false)
          service_types) \/
  exists i name kws kw,
    service_types !! i = Some (name, kws) /\
    _determine_service_type text = name /\
    kw ∈ kws /\ str_contains kw (str_lower text) = true /\
    forall j it kw', j < i -> service_types !! j = Some it -> kw' ∈ it.2 ->
      str_contains kw' (str_lower text) = false.
Proof. apply first_service_type_spec. Qed.

(** ** The prompt *)

Section PromptExtras.
Context {Emb : Type} `{!Backend Emb}.
Context {PyFloat : Type} `{!Builtins PyFloat}.
Variable rows : list (Row Emb).
Variable json_dumps : string -> string.

(** X11.  The values [categorize] extracts never reach the prompt.  The
    dict of [categorize] has the keys latency_ms and throughput_mbps, and
    [build_rag_prompt] reads latency and throughput: whenever it returns,
    for every text and every list of exemplars, the latency and throughput
    fields of the user prompt are the default Unknown; the service type is
    the one [_determine_service_type] gives, and the priority is a number
    from 1 to 4. *)
Theorem build_rag_prompt_unknown_fields (user_intent : string)
    (examples : list Example) (system_prompt user_prompt : string) :
  build_rag_prompt json_dumps user_intent examples
  = Ret (system_prompt, user_prompt) ->
  exists p : Z,
    (1 <= p <= 4)%Z /\
    user_prompt
    = user_prompt_text
        (str_join newline (examples_text json_dumps 1 (take 3 examples)))
        user_intent (_determine_service_type user_intent)
        "Unknown" "Unknown" (pretty p).
Proof.
  unfold build_rag_prompt.
  change (slice_to examples 3) with (take 3 examples).
  destruct (categorize user_intent) as [d | |] eqn:Hd; try discriminate.
  destruct (categorize_inv user_intent d Hd) as (info & lat & thr & _ & _ & _
                                                 & ->).
  unfold mbind, outcome_bind, mret, outcome_ret, dict_get.
  match goal with
  | |- context [analysis_of ?c ?i ?l ?t ?u] =>
      destruct (analysis_of_lookup c i l t u)
        as (_ & _ & _ & _ & Hs & Hp & Hl & Ht)
  end.
  rewrite Hs, Hp, Hl, Ht.
  cbv beta iota delta [from_option py_format Datatypes.id]. intros Hb.
  exists (_determine_priority
            (scan_categories (str_lower user_intent) CATEGORIES
                             "mobile_broadband" 0).1).
  split; [apply determine_priority_range | congruence].
Qed.

(** Only the first three exemplars are shown in the prompt. *)
Lemma build_rag_prompt_take (user_intent : string) (examples : list Example) :
  build_rag_prompt json_dumps user_intent examples
  = build_rag_prompt json_dumps user_intent (take 3 examples).
Proof.
  unfold build_rag_prompt.
  change (slice_to examples 3) with (take 3 examples).
  change (slice_to (take 3 examples) 3) with (take 3 (take 3 examples)).
  rewrite take_take. reflexivity.
Qed.

End PromptExtras.

Section PromptDepth.
Context {Emb : Type} `{!Backend Emb}.
Context {PyFloat : Type} `{!Builtins PyFloat}.
Variable rows : list (Row Emb).
Variable json_dumps : string -> string.

(** X12.  Retrieving more than three exemplars does not change the
    prompt.  [build_rag_prompt] shows [examples[:3]]; under topk the three
    nearest are the same for every [k >= 3], and under mmr the greedy
    selection for [k] starts with the selection for 3 (on a pool of the 20
    nearest that is larger than [k]).  So the prompts built for [k] and for
    3 are equal. *)
Theorem prompt_same_beyond_three (fuel : nat) (strategy : string) (k : Z)
    (user_intent : string) :
  (3 <= k)%Z ->
  strategy = "topk" \/
  (strategy = "mmr" /\
   (k < Z.of_nat (length (pool_of rows user_intent 20)))%Z /\
   (k <= Z.of_nat fuel)%Z) ->
  (examples ← retrieve_examples rows fuel strategy k user_intent;
   build_rag_prompt json_dumps user_intent examples)
  = (examples ← retrieve_examples rows fuel strategy 3 user_intent;
     build_rag_prompt json_dumps user_intent examples).
Proof.
  intros Hk [-> | (-> & Hbig & Hfuel)]; unfold retrieve_examples; simpl.
  - rewrite !retrieve_top_k_pos by lia. simpl.
    rewrite build_rag_prompt_take.
    change 3%nat with (Z.to_nat 3). rewrite take_pool_of by exact Hk.
    reflexivity.
  - destruct (retrieve_mmr_take rows fuel user_intent 3 k 20 (1 # 2))
      as (sel & sel' & -> & -> & ->); try lia.
    simpl. rewrite build_rag_prompt_take. reflexivity.
Qed.

End PromptDepth.

(** ** Strings *)

Lemma str_app_cons (c : ascii) (r s : string) :
  String c r +:+ s = String c (r +:+ s).
Proof. reflexivity. Qed.

Lemma str_app_nil_l (s : string) : "" +:+ s = s.
Proof. reflexivity. Qed.

Lemma str_app_nil_r (s : string) : s +:+ "" = s.
Proof.
  induction s as [| c s IH]; [reflexivity |].
  rewrite str_app_cons, IH. reflexivity.
Qed.

Lemma str_app_assoc (a b c : string) : (a +:+ b) +:+ c = a +:+ b +:+ c.
Proof.
  induction a as [| x a IH]; [reflexivity |].
  rewrite !str_app_cons, IH. reflexivity.
Qed.

Lemma str_length_app (a b : string) :
  String.length (a +:+ b) = String.length a + String.length b.
Proof.
  induction a as [| x a IH]; [reflexivity |].
  rewrite str_app_cons. simpl. rewrite IH. reflexivity.
Qed.

Lemma str_prefix_app (p s : string) : String.prefix p (p +:+ s) = true.
Proof.
  induction p as [| c p IH]; [destruct s; reflexivity |].
  rewrite str_app_cons. simpl.
  destruct (ascii_dec c c) as [_ | Hne]; [exact IH | congruence].
Qed.

Lemma str_prefix_app_l (a b : string) : forall s,
  String.prefix (a +:+ b) s = true -> String.prefix a s = true.
Proof.
  induction a as [| c a IH]; intros s; [destruct s; reflexivity |].
  rewrite str_app_cons. destruct s as [| d s]; simpl; [discriminate |].
  destruct (ascii_dec c d); [apply IH | discriminate].
Qed.

Lemma str_prefix_head (c d : ascii) (p s : string) :
  String.prefix (String c p) (String d s) = true -> c = d.
Proof.
  simpl. destruct (ascii_dec c d) as [H | _]; [intros _; exact H | discriminate].
Qed.

Lemma str_from_app (p s : string) : str_from (String.length p) (p +:+ s) = s.
Proof.
  induction p as [| c p IH]; [destruct s; reflexivity |].
  rewrite str_app_cons. simpl. exact IH.
Qed.

Lemma str_to_app (a s : string) : str_to (String.length a) (a +:+ s) = a.
Proof.
  induction a as [| c a IH]; [destruct s; reflexivity |].
  rewrite str_app_cons. simpl. rewrite IH. reflexivity.
Qed.

Lemma str_drop_last_app (a p : string) :
  str_drop_last (String.length p) (a +:+ p) = a.
Proof.
  unfold str_drop_last. rewrite str_length_app.
  replace (String.length a + String.length p - String.length p)
    with (String.length a) by lia.
  apply str_to_app.
Qed.

Lemma str_endswith_app (a p : string) : str_endswith p (a +:+ p) = true.
Proof.
  induction a as [| c a IH].
  - rewrite str_app_nil_l.
    destruct p; cbn [str_endswith]; rewrite String.eqb_refl; reflexivity.
  - rewrite str_app_cons. cbn [str_endswith]. rewrite IH. apply orb_true_r.
Qed.

Lemma length_str_lstrip (s : string) :
  String.length (str_lstrip s) <= String.length s.
Proof.
  induction s as [| c s IH]; simpl; [lia |].
  destruct (is_space c); simpl; lia.
Qed.

(** A text that [lstrip] leaves alone does not start with a separator. *)
Lemma str_lstrip_fixed (c : ascii) (r : string) :
  str_lstrip (String c r) = String c r -> is_space c = false.
Proof.
  simpl. destruct (is_space c); [| reflexivity].
  intros Heq. pose proof (length_str_lstrip r) as Hl. rewrite Heq in Hl.
  simpl in Hl. lia.
Qed.

Lemma str_lstrip_space_app (ws s : string) :
  all_space ws = true -> str_lstrip (ws +:+ s) = str_lstrip s.
Proof.
  induction ws as [| c ws IH]; [reflexivity |].
  simpl. intros [Hc Hws]%andb_true_iff.
  rewrite ?str_app_cons. simpl. rewrite Hc. apply IH, Hws.
Qed.

Lemma str_lstrip_space (ws : string) : all_space ws = true -> str_lstrip ws = "".
Proof.
  induction ws as [| c ws IH]; [reflexivity |].
  simpl. intros [Hc Hws]%andb_true_iff. rewrite Hc. apply IH, Hws.
Qed.

Lemma str_rstrip_space (ws : string) : all_space ws = true -> str_rstrip ws = "".
Proof.
  induction ws as [| c ws IH]; [reflexivity |].
  simpl. intros [Hc Hws]%andb_true_iff. rewrite (IH Hws), Hc. reflexivity.
Qed.

Lemma str_rstrip_app_space (s ws : string) :
  all_space ws = true -> str_rstrip (s +:+ ws) = str_rstrip s.
Proof.
  intros Hws. induction s as [| c s IH].
  - rewrite str_app_nil_l. apply str_rstrip_space, Hws.
  - rewrite str_app_cons. simpl. rewrite IH. reflexivity.
Qed.

Lemma str_rstrip_app_fixed (a b : string) :
  str_rstrip b = b -> b <> "" -> str_rstrip (a +:+ b) = a +:+ b.
Proof.
  intros Hb Hne. induction a as [| c a IH]; [exact Hb |].
  rewrite str_app_cons. simpl. rewrite IH.
  destruct (String.eqb_spec (a +:+ b) "") as [Heq | _].
  - destruct a; [contradiction | discriminate].
  - rewrite andb_false_r. reflexivity.
Qed.

(** [strip] removes the padding around a text without outer separators. *)
Lemma str_strip_padded (ws1 ws2 s : string) :
  all_space ws1 = true -> all_space ws2 = true ->
  str_lstrip s = s -> str_rstrip s = s ->
  str_strip (ws1 +:+ s +:+ ws2) = s.
Proof.
  intros H1 H2 Hl Hr. unfold str_strip.
  rewrite (str_lstrip_space_app ws1) by exact H1.
  destruct s as [| c r].
  - rewrite str_app_nil_l, (str_lstrip_space ws2) by exact H2. reflexivity.
  - pose proof (str_lstrip_fixed c r Hl) as Hc.
    rewrite str_app_cons. simpl str_lstrip. rewrite Hc.
    rewrite <- str_app_cons, (str_rstrip_app_space _ ws2) by exact H2.
    exact Hr.
Qed.

(** ** The cleaning of the response *)

(** X13.  What [translate] hands to [json.loads].  For a non-empty text
    [body] without outer whitespace that does not start with a backquote:
    a response that wraps [body] in a [```json] fence, with any whitespace
    around the fence and around [body], is cleaned to [body]. *)
Theorem clean_response_fenced (body ws1 ws2 ws3 ws4 : string) :
  all_space ws1 = true -> all_space ws2 = true ->
  all_space ws3 = true -> all_space ws4 = true ->
  str_lstrip body = body -> str_rstrip body = body ->
  body <> "" -> str_startswith "`" body = false ->
  clean_response
    (ws1 +:+ "```json" +:+ ws2 +:+ body +:+ ws3 +:+ "```" +:+ ws4)
  = body.
Proof.
  intros H1 H2 H3 H4 Hl Hr Hne Hq. unfold clean_response.
  set (inner := ws2 +:+ body +:+ ws3).
  assert (ws1 +:+ "```json" +:+ ws2 +:+ body +:+ ws3 +:+ "```" +:+ ws4
          = ws1 +:+ ("```json" +:+ inner +:+ "```") +:+ ws4) as ->.
  { unfold inner. rewrite !str_app_assoc. reflexivity. }
  rewrite str_strip_padded; try assumption; cycle 1.
  { reflexivity. }
  { rewrite <- str_app_assoc. apply str_rstrip_app_fixed;
      [reflexivity | discriminate]. }
  unfold str_startswith.
  rewrite (str_prefix_app "```json"). 
  change 7 with (String.length "```json"). rewrite str_from_app.
  assert (String.prefix "```" (inner +:+ "```") = false) as ->.
  { destruct (String.prefix "```" (inner +:+ "```")) eqn:Hp; [| reflexivity].
    exfalso. unfold inner in Hp. destruct ws2 as [| c ws2].
    - rewrite str_app_nil_l in Hp. destruct body as [| d body];
        [contradiction |].
      rewrite !str_app_cons in Hp. apply str_prefix_head in Hp. subst d.
      unfold str_startswith in Hq. simpl in Hq. destruct body; discriminate.
    - rewrite !str_app_cons in Hp. apply str_prefix_head in Hp. subst c.
      simpl in H2. discriminate. }
  rewrite str_endswith_app.
  change 3 with (String.length "```"). rewrite str_drop_last_app.
  apply str_strip_padded; assumption.
Qed.

(** X14.  A response without fence is only stripped: for a text [body]
    without outer whitespace that neither starts nor ends with three
    backquotes, a response that pads [body] with whitespace is cleaned to
    [body]. *)
Theorem clean_response_plain (body ws1 ws2 : string) :
  all_space ws1 = true -> all_space ws2 = true ->
  str_lstrip body = body -> str_rstrip body = body ->
  str_startswith "```" body = false -> str_endswith "```" body = false ->
  clean_response (ws1 +:+ body +:+ ws2) = body.
Proof.
  intros H1 H2 Hl Hr Hs He. unfold clean_response.
  rewrite str_strip_padded by assumption.
  assert (str_startswith "```json" body = false) as ->.
  { destruct (str_startswith "```json" body) eqn:Hp; [| reflexivity].
    unfold str_startswith in *.
    apply (str_prefix_app_l "```" "json") in Hp. congruence. }
  rewrite Hs, He. unfold str_strip. rewrite Hl. exact Hr.
Qed.

(** ** The experiment runner *)

Lemma external_settles {A} (r : exn + A) : external r <> OutOfFuel.
Proof. destruct r; discriminate. Qed.

Lemma mapM_Forall2 {A B} (f : A -> outcome B) (P : A -> B -> Prop)
    (l : list A) :
  Forall (fun a => exists b, f a = Ret b /\ P a b) l ->
  exists bs, mapM f l = Ret bs /\ Forall2 P l bs.
Proof.
  induction 1 as [| a l (b & Hb & HP) _ (bs & Hbs & Hall)]; simpl.
  - exists []. split; [reflexivity | constructor].
  - exists (b :: bs). rewrite Hb. simpl. rewrite Hbs. simpl.
    split; [reflexivity | constructor; assumption].
Qed.

Lemma length_filter_le {A} (p : A -> bool) (l : list A) :
  length (List.filter p l) <= length l.
Proof.
  induction l as [| a l IH]; simpl; [lia |].
  destruct (p a); simpl; lia.
Qed.

Lemma metrics_of {Doc} (results : list (ResultRow Doc)) (elapsed_time : Q) :
  exists m,
    calculate_metrics results elapsed_time = Ret m /\
    total_intents m = length results /\
    valid_intents m = length (List.filter res_valid results) /\
    invalid_intents m
    = (Z.of_nat (length results)
       - Z.of_nat (length (List.filter res_valid results)))%Z /\
    total_time_seconds m = elapsed_time /\
    (results = [] -> success_rate m = 0%Q /\ avg_time_per_intent m = 0%Q) /\
    (results <> [] ->
     success_rate m
     = ((Z.of_nat (length (List.filter res_valid results))
         # Pos.of_nat (length results)) * 100)%Q /\
     avg_time_per_intent m
     = (elapsed_time / inject_Z (Z.of_nat (length results)))%Q).
Proof.
  unfold calculate_metrics. destruct results as [| r results].
  - simpl. eexists. split; [reflexivity |]. simpl.
    repeat split; try reflexivity; congruence.
  - set (rs := r :: results).
    assert (length rs <> 0%nat) as Hn by (simpl; lia).
    destruct (Nat.ltb_spec 0 (length rs)) as [_ | H]; [| lia].
    rewrite int_truediv_ok by exact Hn.
    unfold mbind, mret, outcome_bind, outcome_ret.
    rewrite float_truediv_ok.
    2:{ intros H0. unfold Qeq, inject_Z in H0. simpl in H0. lia. }
    simpl. eexists. split; [reflexivity |]. simpl.
    repeat split; try reflexivity; discriminate.
Qed.

(** X15.  [calculate_metrics] cannot fail, on an empty list of results
    either (both divisions are guarded), and its counts are consistent:
    valid plus invalid is the total, no count is negative, and the success
    rate is a percentage, 0 when there is no result and 100 exactly when
    every result is valid. *)
Theorem calculate_metrics_sound {Doc} (results : list (ResultRow Doc))
    (elapsed_time : Q) :
  exists m,
    calculate_metrics results elapsed_time = Ret m /\
    total_intents m = length results /\
    (Z.of_nat (valid_intents m) + invalid_intents m
     = Z.of_nat (total_intents m))%Z /\
    (0 <= invalid_intents m)%Z /\
    (0 <= success_rate m <= 100)%Q /\
    (results = [] ->
     (success_rate m == 0)%Q /\ (avg_time_per_intent m == 0)%Q) /\
    (results <> [] ->
     ((success_rate m == 100)%Q <->
      Forall (fun r => res_valid r = true) results) /\
     (avg_time_per_intent m * inject_Z (Z.of_nat (length results))
      == elapsed_time)%Q).
Proof.
  destruct (metrics_of results elapsed_time)
    as (m & Hm & Ht & Hv & Hi & _ & Hempty & Hfull).
  exists m. split; [exact Hm |]. split; [exact Ht |].
  pose proof (length_filter_le res_valid results) as Hle.
  split; [lia |]. split; [lia |].
  destruct results as [| r results].
  - destruct Hempty as [Hs Ha]; [reflexivity |]. rewrite Hs, Ha.
    split; [lra |]. split; [intros _; split; reflexivity |].
    intros H. contradiction.
  - set (rs := r :: results) in *.
    assert (length rs <> 0%nat) as Hn by (simpl; lia).
    destruct Hfull as [Hs Ha]; [discriminate |].
    set (v := length (List.filter res_valid rs)) in *.
    set (n := length rs) in *.
    assert (Z.of_nat v # Pos.of_nat n
            == inject_Z (Z.of_nat v) / inject_Z (Z.of_nat n))%Q as Hq.
    { rewrite Qmake_Qdiv. rewrite <- positive_nat_Z, Nat2Pos.id by exact Hn.
      reflexivity. }
    assert (0 < inject_Z (Z.of_nat n))%Q as Hpos.
    { change 0%Q with (inject_Z 0). rewrite <- Zlt_Qlt. lia. }
    assert (0 <= inject_Z (Z.of_nat v))%Q as Hv0.
    { change 0%Q with (inject_Z 0). rewrite <- Zle_Qle. lia. }
    assert (inject_Z (Z.of_nat v) <= inject_Z (Z.of_nat n))%Q as Hvn.
    { rewrite <- Zle_Qle. lia. }
    rewrite Hs, Ha, Hq.
    split.
    { split.
      - apply Qmult_le_0_compat; [| lra].
        apply Qle_shift_div_l; [exact Hpos | lra].
      - assert (inject_Z (Z.of_nat v) / inject_Z (Z.of_nat n) <= 1)%Q.
        { apply Qle_shift_div_r; [exact Hpos | lra]. }
        lra. }
    split; [intros H; discriminate |]. intros _. split; [split |].
    + intros H100.
      assert (inject_Z (Z.of_nat v) / inject_Z (Z.of_nat n) == 1)%Q as H1
        by lra.
      assert (inject_Z (Z.of_nat v) == inject_Z (Z.of_nat n))%Q as Heq.
      { pose proof (Qmult_div_r (inject_Z (Z.of_nat v))
                                (inject_Z (Z.of_nat n))) as Hd.
        assert (~ inject_Z (Z.of_nat n) == 0)%Q as Hn0 by lra.
        specialize (Hd Hn0). rewrite H1 in Hd. lra. }
      assert (v = n) as Hvn' by (unfold Qeq in Heq; simpl in Heq; lia).
      apply Forall_forall. intros x Hx.
      destruct (res_valid x) eqn:Hvx; [reflexivity | exfalso].
      unfold v, n in Hvn'.
      assert (length (List.filter res_valid rs) < length rs)%nat; [| lia].
      clear -Hx Hvx. induction rs as [| y rs IH]; [inversion Hx |].
      apply elem_of_cons in Hx. simpl. destruct Hx as [<- | Hx].
      * rewrite Hvx. pose proof (length_filter_le res_valid rs). lia.
      * specialize (IH Hx). destruct (res_valid y); simpl; lia.
    + intros Hall.
      assert (v = n) as ->.
      { unfold v, n. clear -Hall.
        induction Hall as [| y l Hy _ IH]; simpl; [reflexivity |].
        rewrite Hy. simpl. rewrite IH. reflexivity. }
      field. lra.
    + field. lra.
Qed.

Section RunnerExtras.
Context {Emb : Type} `{!Backend Emb}.
Context {PyFloat : Type} `{!Builtins PyFloat}.
Context {Doc : Type}.
Variable rows : list (Row Emb).
Variable json_dumps : string -> string.
Variable llm_generate : string -> string -> exn + string.
Variable json_loads : string -> exn + Doc.
Variable validate_intent : Doc -> exn + bool * list string.
Variable describe : exn -> string.

Lemma retrieve_examples_settles (fuel : nat) (strategy : string) (k : Z)
    (user_intent : string) :
  (1 <= k)%Z -> (k <= Z.of_nat fuel)%Z ->
  retrieve_examples rows fuel strategy k user_intent <> OutOfFuel.
Proof.
  intros Hk Hfuel. unfold retrieve_examples.
  destruct (String.eqb strategy "topk").
  { rewrite retrieve_top_k_pos by exact Hk. discriminate. }
  destruct (String.eqb strategy "mmr").
  { destruct (Z.le_gt_cases (Z.of_nat (length (pool_of rows user_intent 20)))
                            k) as [Hs | Hb].
    - rewrite retrieve_mmr_small by (try exact Hs; lia). discriminate.
    - destruct (mmr_run rows fuel user_intent k 20 (1 # 2))
        as (sel & idx & _ & Hm & _); try lia.
      rewrite Hm. discriminate. }
  destruct (String.eqb strategy "hybrid"); [| discriminate].
  destruct (retrieve_hybrid_outcome rows user_intent k (3 # 10) Hk)
    as [(l & ->) | ->]; discriminate.
Qed.

Lemma first_latency_settles (patterns : list string) (text : string) :
  first_latency patterns text <> OutOfFuel.
Proof.
  induction patterns as [| p ps IH]; simpl; [discriminate |].
  destruct (re_search p (str_lower text)); [| exact IH].
  destruct (int_of_str s); discriminate.
Qed.

Lemma first_throughput_settles (patterns : list string) (text : string) :
  first_throughput patterns text <> OutOfFuel.
Proof.
  induction patterns as [| p ps IH]; simpl; [discriminate |].
  destruct (re_search p (str_lower text)); [| exact IH].
  destruct (float_of_str s); simpl; [discriminate |].
  destruct (int_of_float _); discriminate.
Qed.

Lemma build_rag_prompt_settles (user_intent : string)
    (examples : list Example) :
  build_rag_prompt json_dumps user_intent examples <> OutOfFuel.
Proof.
  unfold build_rag_prompt.
  destruct (categorize_eq user_intent) as (info & _ & Heq). rewrite Heq.
  pose proof (first_latency_settles latency_patterns user_intent) as Hl.
  pose proof (first_throughput_settles throughput_patterns user_intent) as Ht.
  fold (_extract_latency user_intent) in Hl.
  fold (_extract_throughput user_intent) in Ht.
  unfold mbind, outcome_bind.
  destruct (_extract_latency user_intent); try discriminate;
    [| contradiction].
  destruct (_extract_throughput user_intent); try discriminate.
  contradiction.
Qed.

Lemma translate_settles (fuel : nat) (strategy : string) (k : Z)
    (user_intent : string) :
  (1 <= k)%Z -> (k <= Z.of_nat fuel)%Z ->
  translate rows json_dumps llm_generate json_loads fuel strategy k
            user_intent <> OutOfFuel.
Proof.
  intros Hk Hfuel. unfold translate.
  pose proof (retrieve_examples_settles fuel strategy k user_intent Hk Hfuel)
    as Hr.
  destruct (retrieve_examples _ _ _ _ _) as [examples | e |];
    try discriminate; [| contradiction].
  simpl.
  pose proof (build_rag_prompt_settles user_intent examples) as Hb.
  destruct (build_rag_prompt _ _ _) as [prompts | e |];
    try discriminate; [| contradiction].
  simpl. destruct (llm_generate _ _); simpl; [discriminate |].
  apply external_settles.
Qed.

(** One pass of the loop appends one entry, whatever the translator and
    the validator do. *)
Lemma run_item_row (fuel : nat) (strategy : string) (k : Z)
    (item : IntentPair) :
  (1 <= k)%Z -> (k <= Z.of_nat fuel)%Z ->
  exists r,
    run_item rows json_dumps llm_generate json_loads validate_intent
             describe fuel strategy k item = Ret r /\
    res_user_intent r = pair_user_intent item /\
    res_reference r = pair_tmf921_intent item /\
    (res_generated r = None -> res_valid r = false).
Proof.
  intros Hk Hfuel. unfold run_item.
  pose proof (translate_settles fuel strategy k (pair_user_intent item)
                Hk Hfuel) as Ht.
  destruct (translate _ _ _ _ _ _ _ _) as [generated | e |];
    [| | contradiction]; simpl.
  - destruct (validate_intent generated) as [e | validation]; simpl;
      eexists; (split; [reflexivity |]); simpl; auto.
    repeat split. discriminate.
  - eexists. split; [reflexivity |]. simpl. auto.
Qed.

(** X16.  No exception of the retriever, the language model, the JSON
    parser or the validator escapes [run_rag_experiment]: for [k >= 1] and
    fuel for [k] iterations of the selection loop it returns, with one
    result per item of the test subset, in the order of the subset, each
    carrying the text and the reference of its item; a result without
    generated document is invalid, and the total of the metrics is the size
    of the subset.  [max_intents = 0] selects the whole test set, as [None]
    does. *)
Theorem run_rag_experiment_rows (fuel : nat) (test_data : list IntentPair)
    (elapsed_time : Q) (strategy : string) (k : Z) (max_intents : option Z) :
  (1 <= k)%Z -> (k <= Z.of_nat fuel)%Z ->
  exists exp,
    run_rag_experiment rows json_dumps llm_generate json_loads
      validate_intent describe fuel test_data elapsed_time strategy k
      max_intents = Ret exp /\
    Forall2 (fun item r =>
               res_user_intent r = pair_user_intent item /\
               res_reference r = pair_tmf921_intent item /\
               (res_generated r = None -> res_valid r = false))
            (test_subset test_data max_intents) (results exp) /\
    total_intents (metrics exp) = length (test_subset test_data max_intents) /\
    (max_intents = None \/ max_intents = Some 0%Z ->
     length (results exp) = length test_data).
Proof.
  intros Hk Hfuel. unfold run_rag_experiment.
  destruct (mapM_Forall2
              (run_item rows json_dumps llm_generate json_loads
                        validate_intent describe fuel strategy k)
              (fun item r =>
                 res_user_intent r = pair_user_intent item /\
                 res_reference r = pair_tmf921_intent item /\
                 (res_generated r = None -> res_valid r = false))
              (test_subset test_data max_intents))
    as (rs & Hrs & Hall).
  { apply Forall_forall. intros item _. apply run_item_row; assumption. }
  rewrite Hrs. simpl.
  destruct (metrics_of rs elapsed_time) as (m & Hm & Ht & _).
  rewrite Hm. simpl. eexists. split; [reflexivity |]. simpl.
  split; [exact Hall |].
  pose proof (Forall2_length _ _ _ Hall) as Hlen.
  split; [lia |].
  intros [-> | ->]; simpl in Hlen; lia.
Qed.

(** X17.  With a strategy name other than topk, mmr and hybrid the run
    still returns: every item of the test subset gets an invalid result
    without generated document whose only error is the message of the
    [ValueError] of [retrieve_examples], and the metrics count no valid
    intent. *)
Theorem run_rag_experiment_unknown_strategy (fuel : nat)
    (test_data : list IntentPair) (elapsed_time : Q) (strategy : string)
    (k : Z) (max_intents : option Z) :
  strategy <> "topk" -> strategy <> "mmr" -> strategy <> "hybrid" ->
  exists exp,
    run_rag_experiment rows json_dumps llm_generate json_loads
      validate_intent describe fuel test_data elapsed_time strategy k
      max_intents = Ret exp /\
    results exp
    = map (fun item =>
             mkResult (pair_user_intent item) None (pair_tmf921_intent item)
                      false ["Unknown retrieval strategy: " +:+ strategy])
          (test_subset test_data max_intents) /\
    valid_intents (metrics exp) = 0%nat /\
    (success_rate (metrics exp) == 0)%Q.
Proof.
  intros H1 H2 H3. unfold run_rag_experiment.
  rewrite (mapM_Ret _
             (fun item =>
                mkResult (pair_user_intent item) None
                         (pair_tmf921_intent item) false
                         ["Unknown retrieval strategy: " +:+ strategy])).
  2:{ apply Forall_forall. intros item _.
      unfold run_item, translate, retrieve_examples.
      destruct (String.eqb_spec strategy "topk"); [contradiction |].
      destruct (String.eqb_spec strategy "mmr"); [contradiction |].
      destruct (String.eqb_spec strategy "hybrid"); [contradiction |].
      reflexivity. }
  simpl.
  set (rs := map _ (test_subset test_data max_intents)).
  destruct (metrics_of rs elapsed_time)
    as (m & Hm & _ & Hv & _ & _ & Hempty & Hfull).
  rewrite Hm. simpl. eexists. split; [reflexivity |]. simpl.
  split; [reflexivity |].
  assert (List.filter res_valid rs = []) as Hnone.
  { unfold rs. clear. generalize (test_subset test_data max_intents).
    induction l as [| a l IH]; simpl; [reflexivity | exact IH]. }
  rewrite Hnone in Hv, Hfull. split; [exact Hv |].
  destruct rs as [| r rs'].
  - destruct Hempty as [-> _]; reflexivity.
  - destruct Hfull as [-> _]; [discriminate |]. simpl. reflexivity.
Qed.

End RunnerExtras.

(** ** The formatter of the retriever *)

Lemma format_lines_pairs (json_dumps : string -> string)
    (l l' : list Example) : forall i,
  map pair_of_example l = map pair_of_example l' ->
  format_lines json_dumps i l = format_lines json_dumps i l'.
Proof.
  revert l'. induction l as [| x l IH]; intros [| x' l'] i Heq;
    try discriminate; [reflexivity |].
  simpl in Heq. injection Heq as Hu Ht Hrest. simpl.
  rewrite Hu, Ht, (IH l' (S i) Hrest). reflexivity.
Qed.

(** X18.  [format_examples_for_prompt] shows the text and the TMF921
    document of the first [max_examples] exemplars and nothing else: two
    lists of exemplars that agree on these two fields over their first
    [max_examples] entries are formatted to the same text, whatever their
    distances, ids and combined scores are. *)
Theorem format_examples_for_prompt_fields (json_dumps : string -> string)
    (examples examples' : list Example) (max_examples : Z) :
  map pair_of_example (slice_to examples max_examples)
  = map pair_of_example (slice_to examples' max_examples) ->
  format_examples_for_prompt json_dumps examples max_examples
  = format_examples_for_prompt json_dumps examples' max_examples.
Proof.
  intros Heq. unfold format_examples_for_prompt.
  rewrite (format_lines_pairs json_dumps _ _ 1 Heq). reflexivity.
Qed.

(** ** The comparison *)

Lemma max_by_from_spec {A} (key : A -> Q) (l : list A) : forall best,
  exists i,
    (best :: l) !! i = Some (max_by_from key best l) /\
    Forall (fun x => (key x <= key (max_by_from key best l))%Q) (best :: l) /\
    forall j x, j < i -> (best :: l) !! j = Some x ->
      (key x < key (max_by_from key best l))%Q.
Proof.
  induction l as [| y l IH]; intros best; simpl.
  - exists 0. split; [reflexivity |].
    split; [constructor; [lra | constructor] |].
    intros j x Hj. lia.
  - destruct (float_gt (key y) (key best)) eqn:Hgt.
    + apply float_gt_lt in Hgt.
      destruct (IH y) as (i & Hi & Hall & Hbefore).
      exists (S i). split; [exact Hi |].
      apply Forall_cons in Hall. destruct Hall as [Hy Hall].
      split; [constructor; [lra | constructor; assumption] |].
      intros [| j] x Hj Hx; simpl in Hx.
      * injection Hx as <-. lra.
      * apply (Hbefore j); [lia | exact Hx].
    + apply float_gt_le in Hgt.
      destruct (IH best) as (i & Hi & Hall & Hbefore).
      apply Forall_cons in Hall. destruct Hall as [Hb Hall].
      destruct i as [| i].
      * exists 0. simpl in Hi. split; [exact Hi |].
        split; [constructor; [exact Hb | constructor; [lra | exact Hall]] |].
        intros j x Hj. lia.
      * exists (S (S i)). split; [exact Hi |].
        split; [constructor; [exact Hb | constructor; [lra | exact Hall]] |].
        intros [| [| j]] x Hj Hx; simpl in Hx.
        -- injection Hx as <-. apply (Hbefore 0); [lia | reflexivity].
        -- injection Hx as <-.
           pose proof (Hbefore 0 best ltac:(lia) eq_refl). lra.
        -- apply (Hbefore (S j)); [lia | exact Hx].
Qed.

(** X19.  [compare_experiments] names as best approach the first
    experiment, in the order given, whose success rate no other experiment
    exceeds; the summary has one entry per experiment.  On an empty list it
    raises the [ValueError] of [max]. *)
Theorem compare_experiments_best {Doc} (max_empty_message now : string)
    (experiments : list (Experiment Doc)) :
  (experiments = [] ->
   compare_experiments max_empty_message now experiments
   = Raise (ValueError max_empty_message)) /\
  (experiments <> [] ->
   exists c i best,
     compare_experiments max_empty_message now experiments = Ret c /\
     experiments !! i = Some best /\
     best_approach c = experiment best /\
     map (fun s => s.1.1) (summary c) = map experiment experiments /\
     Forall (fun e => (success_rate (metrics e)
                       <= success_rate (metrics best))%Q) experiments /\
     forall j e, j < i -> experiments !! j = Some e ->
       (success_rate (metrics e) < success_rate (metrics best))%Q).
Proof.
  split; [intros ->; reflexivity |].
  destruct experiments as [| x rest]; [congruence | intros _].
  destruct (max_by_from_spec (fun e : Experiment Doc =>
                                success_rate (metrics e)) rest x)
    as (i & Hi & Hall & Hbefore).
  unfold compare_experiments. simpl.
  eexists. exists i. eexists. split; [reflexivity |]. simpl.
  split; [exact Hi |]. split; [reflexivity |].
  split; [rewrite map_map; reflexivity |].
  split; [exact Hall | exact Hbefore].
Qed.

(** ** The experiment names of the command line *)

Lemma str_prefix_inv (p : string) : forall s,
  String.prefix p s = true -> exists t, s = p +:+ t.
Proof.
  induction p as [| c p IH]; intros s Hp.
  - exists s. reflexivity.
  - destruct s as [| d s]; simpl in Hp; [discriminate |].
    destruct (ascii_dec c d) as [<- | _]; [| discriminate].
    destruct (IH s Hp) as (t & ->). exists t. reflexivity.
Qed.

Lemma str_contains_cons (needle : string) (c : ascii) (s : string) :
  str_contains needle (String c s) = false -> str_contains needle s = false.
Proof. simpl. intros [_ H]%orb_false_iff. exact H. Qed.

(** A text without underscore has no occurrence of [rag_]. *)
Lemma str_replace_rag_id (s : string) :
  str_contains "_" s = false -> str_replace_from "rag_" "" 0 s = s.
Proof.
  induction s as [| c s IH]; intros Hno; [reflexivity |].
  cbn [str_replace_from].
  destruct (String.prefix "rag_" (String c s)) eqn:Hp.
  - apply str_prefix_inv in Hp. destruct Hp as (t & Ht).
    rewrite Ht in Hno. destruct t; vm_compute in Hno; discriminate.
  - rewrite IH by (eapply str_contains_cons, Hno). reflexivity.
Qed.

Lemma split_on_from_whole (s : string) : forall cur,
  str_contains "_" s = false -> split_on_from "_" cur s = [cur +:+ s].
Proof.
  induction s as [| c s IH]; intros cur Hno; simpl.
  - rewrite str_app_nil_r. reflexivity.
  - destruct (Ascii.eqb_spec c "_") as [-> | Hne].
    + destruct s; simpl in Hno; discriminate.
    + rewrite IH by (eapply str_contains_cons, Hno).
      rewrite str_app_assoc. reflexivity.
Qed.

Section CommandLineExtras.
Context {PyFloat : Type} `{!Builtins PyFloat}.

Lemma k_after_app (p d : string) :
  d <> "" -> k_after (String.length p) (p +:+ d) = external (int_of_str d).
Proof.
  intros Hd. unfold k_after. rewrite str_length_app, str_from_app.
  destruct (Nat.ltb_spec (String.length p)
                         (String.length p + String.length d)) as [_ | H];
    [reflexivity |].
  destruct d; [contradiction | simpl in H; lia].
Qed.

Lemma str_replace_rag_head (t : string) :
  str_replace "rag_" "" ("rag_" +:+ t) = str_replace_from "rag_" "" 0 t.
Proof. destruct t; reflexivity. Qed.

(** The part of the name that is parsed, for a name [rag_<word>]. *)
Lemma parts_of_name (word : string) :
  str_contains "_" word = false ->
  str_split_on "_" (str_replace "rag_" "" ("rag_" +:+ word)) = [word].
Proof.
  intros Hno. unfold str_split_on.
  rewrite str_replace_rag_head, str_replace_rag_id by exact Hno.
  rewrite split_on_from_whole by exact Hno. reflexivity.
Qed.

Lemma plan_experiment_rag (word : string) :
  str_contains "_" word = false ->
  plan_experiment ("rag_" +:+ word)
  = (if str_startswith "topk" word then
       k ← k_after 4 word; mret (RunRag "topk" k)
     else if str_startswith "mmr" word then
       k ← k_after 3 word; mret (RunRag "mmr" k)
     else if str_startswith "hyb" word then
       k ← k_after 6 word; mret (RunRag "hybrid" k)
     else mret (RunRag "topk" 5)).
Proof.
  intros Hno. unfold plan_experiment.
  assert (String.eqb ("rag_" +:+ word) "baseline" = false) as ->
    by reflexivity.
  unfold str_startswith at 1. rewrite (str_prefix_app "rag_").
  rewrite parts_of_name by exact Hno. reflexivity.
Qed.

Lemma str_prefix_nil (s : string) : String.prefix "" s = true.
Proof. destruct s; reflexivity. Qed.

Lemma str_contains_char_app (c : ascii) (a b : string) :
  str_contains (String c "") (a +:+ b)
  = str_contains (String c "") a || str_contains (String c "") b.
Proof.
  induction a as [| x a IH]; [reflexivity |].
  rewrite str_app_cons. cbn [str_contains String.prefix].
  rewrite IH, !str_prefix_nil, orb_assoc. reflexivity.
Qed.

(** X20.  The names the command line is documented with.  For a
    non-empty suffix [d] without underscore, [rag_topk<d>] runs the topk
    strategy and [rag_mmr<d>] the mmr strategy with [k = int(d)], and the
    hybrid strategy is run with [k = int(d)] by the name [rag_hybrid<d>]: a
    failure of [int(d)] ends [main] with that error. *)
Theorem plan_experiment_suffix (d : string) :
  d <> "" -> str_contains "_" d = false ->
  plan_experiment ("rag_topk" +:+ d)
  = (k ← external (int_of_str d); mret (RunRag "topk" k)) /\
  plan_experiment ("rag_mmr" +:+ d)
  = (k ← external (int_of_str d); mret (RunRag "mmr" k)) /\
  plan_experiment ("rag_hybrid" +:+ d)
  = (k ← external (int_of_str d); mret (RunRag "hybrid" k)).
Proof.
  intros Hd Hno.
  assert (forall word, str_contains "_" word = false ->
            str_contains "_" (word +:+ d) = false) as Happ.
  { intros word Hw. rewrite str_contains_char_app, Hw, Hno. reflexivity. }
  split; [| split].
  - change ("rag_topk" +:+ d) with ("rag_" +:+ "topk" +:+ d).
    rewrite plan_experiment_rag by (apply Happ; reflexivity).
    unfold str_startswith. rewrite (str_prefix_app "topk").
    rewrite (k_after_app "topk") by exact Hd. reflexivity.
  - change ("rag_mmr" +:+ d) with ("rag_" +:+ "mmr" +:+ d).
    rewrite plan_experiment_rag by (apply Happ; reflexivity).
    unfold str_startswith.
    assert (String.prefix "topk" ("mmr" +:+ d) = false) as -> by reflexivity.
    rewrite (str_prefix_app "mmr").
    rewrite (k_after_app "mmr") by exact Hd. reflexivity.
  - change ("rag_hybrid" +:+ d) with ("rag_" +:+ "hybrid" +:+ d).
    rewrite plan_experiment_rag by (apply Happ; reflexivity).
    unfold str_startswith.
    assert (String.prefix "topk" ("hybrid" +:+ d) = false) as ->
      by reflexivity.
    assert (String.prefix "mmr" ("hybrid" +:+ d) = false) as ->
      by reflexivity.
    assert (String.prefix "hyb" ("hybrid" +:+ d) = true) as ->.
    { apply (str_prefix_app_l "hyb" "rid"). apply (str_prefix_app "hybrid"). }
    rewrite (k_after_app "hybrid") by exact Hd. reflexivity.
Qed.

(** X21.  The hybrid branch tests the prefix [hyb] and reads the number
    after six characters: a name [rag_hyb<d>] whose suffix [d] has at most
    three characters (and no underscore) is run with [k = 5] whatever [d]
    is, and [int] is not called. *)
Theorem plan_experiment_hyb_short (d : string) :
  String.length d <= 3 -> str_contains "_" d = false ->
  plan_experiment ("rag_hyb" +:+ d) = Ret (RunRag "hybrid" 5).
Proof.
  intros Hlen Hno.
  change ("rag_hyb" +:+ d) with ("rag_" +:+ "hyb" +:+ d).
  rewrite plan_experiment_rag
    by (rewrite str_contains_char_app, Hno; reflexivity).
  unfold str_startswith.
  assert (String.prefix "topk" ("hyb" +:+ d) = false) as -> by reflexivity.
  assert (String.prefix "mmr" ("hyb" +:+ d) = false) as -> by reflexivity.
  rewrite (str_prefix_app "hyb"). unfold k_after.
  rewrite str_length_app.
  destruct (Nat.ltb_spec 6 (String.length "hyb" + String.length d))
    as [H | _]; [simpl in H; lia | reflexivity].
Qed.

End CommandLineExtras.

(** ** The further properties on the concrete instance *)

Lemma retrieve_hybrid_weight_zero_witness :
  exists l,
    retrieve_top_k Fixture.index "deploy far" 1 = Ret l /\
    retrieve_hybrid Fixture.index "deploy far" 1 0
    = Ret (map (fun c =>
                  set_combined_score (spec_combined_score "deploy far" 0 c) c)
               l).
Proof.
  apply (retrieve_hybrid_weight_zero Fixture.index "deploy far" 1 0).
  - lia.
  - vm_compute. discriminate.
  - vm_compute. repeat constructor; discriminate.
  - reflexivity.
Defined.

Lemma retrieve_hybrid_score_bounds_witness :
  exists l,
    retrieve_hybrid Fixture.index "deploy far" 1 (3 # 10) = Ret l /\
    Forall (fun ex => exists s, combined_score ex = Some s /\ (0 <= s <= 1)%Q)
           l.
Proof.
  apply (retrieve_hybrid_score_bounds Fixture.index "deploy far" 1 (3 # 10)).
  - lia.
  - vm_compute. discriminate.
  - vm_compute. repeat constructor; discriminate.
  - split; vm_compute; discriminate.
Defined.

Lemma retrieve_mmr_first_pick_witness :
  exists sel first,
    retrieve_mmr Fixture.index 2 "deploy far" 2 3 (1 # 2) = Ret sel /\
    sel !! 0%nat = Some first /\
    ((0 < 1 # 2)%Q -> forall c, c ∈ pool_of Fixture.index "deploy far" 3 ->
       (similarity "deploy far" (user_intent c)
        <= similarity "deploy far" (user_intent first))%Q) /\
    (1 # 2 == 0 -> pool_of Fixture.index "deploy far" 3 !! 0%nat = Some first).
Proof.
  apply (retrieve_mmr_first_pick Fixture.index 2 "deploy far" 2 3 (1 # 2)).
  - lia.
  - lia.
  - vm_compute. reflexivity.
  - lia.
Defined.


Lemma build_then_retrieve_all_witness :
  exists rows exs,
    build_vector_database Fixture.embed_all Fixture.chroma_add Fixture.corpus
                          "tmf921_intents" ∅
    = (<["tmf921_intents" := rows]> ∅, Ret rows) /\
    retrieve_top_k rows "deploy far" 3 = Ret exs /\
    map pair_of_example exs ≡ₚ Fixture.corpus /\
    NoDup (map id exs).
Proof.
  apply (build_then_retrieve_all Fixture.embed_all Fixture.chroma_add
           Fixture.corpus "tmf921_intents" "deploy far" 3 ∅
           (map Fixture.embed (map pair_user_intent Fixture.corpus))).
  - discriminate.
  - reflexivity.
  - reflexivity.
  - intros ids docs metas Hi Hd Hm. unfold Fixture.chroma_add.
    rewrite Hi, Hd, Hm. reflexivity.
  - vm_compute. discriminate.
Defined.

Lemma categorize_returns_witness :
  exists d,
    categorize Stubs.gaming = Ret d /\
    dom d = ({[ "category"; "layer"; "latency_ms"; "throughput_mbps";
                "service_type"; "intent_name"; "priority"; "reliability" ]}
             : gset string) /\
    (forall n, Some 20%Z = Some n -> d !! "latency_ms" = Some (PInt n)) /\
    (forall n, None = Some n -> d !! "throughput_mbps" = Some (PInt n)) /\
    (exists p, d !! "priority" = Some (PInt p) /\ (1 <= p <= 4)%Z) /\
    (d !! "layer" = Some (PStr "resource") \/
     d !! "layer" = Some (PStr "service")).
Proof.
  apply (categorize_returns Stubs.gaming (Some 20%Z) None).
  - vm_compute. reflexivity.
  - vm_compute. reflexivity.
Defined.

Lemma categorize_first_best_witness :
  exists c m,
    Stubs.analysis !! "category" = Some (PStr c) /\
    Forall (fun it =>
              count_matches (cat_keywords it.2) (str_lower Stubs.gaming) <= m)
           CATEGORIES /\
    (m = 0 -> c = "mobile_broadband") /\
    (0 < m ->
     exists i info,
       CATEGORIES !! i = Some (c, info) /\
       count_matches (cat_keywords info) (str_lower Stubs.gaming) = m /\
       forall j it, j < i -> CATEGORIES !! j = Some it ->
         count_matches (cat_keywords it.2) (str_lower Stubs.gaming) < m).
Proof.
  apply (categorize_first_best Stubs.gaming Stubs.analysis).
  reflexivity.
Defined.


Lemma build_rag_prompt_unknown_fields_witness :
  exists p : Z,
    (1 <= p <= 4)%Z /\
    Stubs.user_prompt
    = user_prompt_text
        (str_join newline
           (examples_text Stubs.dumps 1
              (take 3 (pool_of Fixture.index Stubs.gaming 2))))
        Stubs.gaming (_determine_service_type Stubs.gaming)
        "Unknown" "Unknown" (pretty p).
Proof.
  apply (build_rag_prompt_unknown_fields Stubs.dumps Stubs.gaming
           (pool_of Fixture.index Stubs.gaming 2)
           system_prompt_text Stubs.user_prompt).
  vm_compute. reflexivity.
Defined.

Lemma retrieve_mmr_prefix_witness :
  exists sel sel',
    retrieve_mmr Fixture.index 2 "deploy far" 1 3 (1 # 2) = Ret sel /\
    retrieve_mmr Fixture.index 2 "deploy far" 2 3 (1 # 2) = Ret sel' /\
    sel = take (Z.to_nat 1) sel'.
Proof.
  apply (retrieve_mmr_prefix Fixture.index 2 "deploy far" 1 2 3 (1 # 2)).
  - lia.
  - lia.
  - vm_compute. reflexivity.
  - lia.
Defined.

Lemma prompt_same_beyond_three_witness :
  (examples ← retrieve_examples Fixture.index22 4 "mmr" 4 Stubs.gaming;
   build_rag_prompt Stubs.dumps Stubs.gaming examples)
  = (examples ← retrieve_examples Fixture.index22 4 "mmr" 3 Stubs.gaming;
     build_rag_prompt Stubs.dumps Stubs.gaming examples).
Proof.
  apply (prompt_same_beyond_three Fixture.index22 Stubs.dumps 4 "mmr" 4
           Stubs.gaming).
  - lia.
  - right. split; [reflexivity |]. split; [vm_compute; reflexivity | lia].
Defined.

Lemma clean_response_fenced_witness :
  clean_response
    ("" +:+ "```json" +:+ newline +:+ "{}" +:+ newline +:+ "```" +:+ " ")
  = "{}".
Proof.
  apply (clean_response_fenced "{}" "" newline newline " ");
    try reflexivity.
  discriminate.
Defined.

Lemma clean_response_plain_witness :
  clean_response (" " +:+ "{}" +:+ newline) = "{}".
Proof.
  apply (clean_response_plain "{}" " " newline); reflexivity.
Defined.

Lemma run_rag_experiment_rows_witness :
  exists exp,
    run_rag_experiment Fixture.index Stubs.dumps Stubs.llm Stubs.loads
      Stubs.validate Stubs.describe 5 Stubs.test_data 3 "mmr" 2 (Some 0%Z)
    = Ret exp /\
    Forall2 (fun item r =>
               res_user_intent r = pair_user_intent item /\
               res_reference r = pair_tmf921_intent item /\
               (res_generated r = None -> res_valid r = false))
            (test_subset Stubs.test_data (Some 0%Z)) (results exp) /\
    total_intents (metrics exp)
    = length (test_subset Stubs.test_data (Some 0%Z)) /\
    (Some 0%Z = None \/ Some 0%Z = Some 0%Z ->
     length (results exp) = length Stubs.test_data).
Proof.
  apply (run_rag_experiment_rows Fixture.index Stubs.dumps Stubs.llm
           Stubs.loads Stubs.validate Stubs.describe 5 Stubs.test_data 3
           "mmr" 2 (Some 0%Z)); lia.
Defined.

Lemma run_rag_experiment_unknown_strategy_witness :
  exists exp,
    run_rag_experiment Fixture.index Stubs.dumps Stubs.llm Stubs.loads
      Stubs.validate Stubs.describe 5 Stubs.test_data 3 "nearest" 2 None
    = Ret exp /\
    results exp
    = map (fun item =>
             mkResult (pair_user_intent item) None (pair_tmf921_intent item)
                      false ["Unknown retrieval strategy: " +:+ "nearest"])
          (test_subset Stubs.test_data None) /\
    valid_intents (metrics exp) = 0%nat /\
    (success_rate (metrics exp) == 0)%Q.
Proof.
  apply (run_rag_experiment_unknown_strategy Fixture.index Stubs.dumps
           Stubs.llm Stubs.loads Stubs.validate Stubs.describe 5
           Stubs.test_data 3 "nearest" 2 None); discriminate.
Defined.

Lemma plan_experiment_suffix_witness :
  plan_experiment ("rag_topk" +:+ "3")
  = (k ← external (int_of_str "3"); mret (RunRag "topk" k)) /\
  plan_experiment ("rag_mmr" +:+ "3")
  = (k ← external (int_of_str "3"); mret (RunRag "mmr" k)) /\
  plan_experiment ("rag_hybrid" +:+ "3")
  = (k ← external (int_of_str "3"); mret (RunRag "hybrid" k)).
Proof.
  apply (plan_experiment_suffix "3"); [discriminate | reflexivity].
Defined.

Lemma plan_experiment_hyb_short_witness :
  plan_experiment ("rag_hyb" +:+ "10") = Ret (RunRag "hybrid" 5).
Proof.
  apply (plan_experiment_hyb_short "10"); [simpl; lia | reflexivity].
Defined.

Lemma format_examples_for_prompt_fields_witness :
  format_examples_for_prompt Stubs.dumps
    [mkExample "far" "{A}" 25 "intent_0" None] 3
  = format_examples_for_prompt Stubs.dumps
      [mkExample "far" "{A}" 0 "intent_7" (Some 1%Q)] 3.
Proof.
  apply (format_examples_for_prompt_fields Stubs.dumps
           [mkExample "far" "{A}" 25 "intent_0" None]
           [mkExample "far" "{A}" 0 "intent_7" (Some 1%Q)] 3).
  reflexivity.
Defined.
